(** * nuance: transit search over a Gaussian-process noise model

    A shallow embedding of [nuance/nuance.py] (class [Nuance]) and the
    properties of its search engine.

    - Scalars are binary64 floats ([PrimFloat.float]); the narrowing that
      jax applies to its own arrays is not modelled.
    - A one-dimensional array is a [list float], a two-dimensional array the
      list of its rows.
    - Objects ([Nuance] sessions and [SearchData] containers) live in a
      heap indexed by locations, and methods are computations of a state and
      exception monad over that heap.
    - tinygp, jax.numpy, numpy's reductions and the sibling modules
      [utils] and [search_data] are an interface ([Externals]). *)

From Stdlib Require Import ZArith Bool Lia.
From Stdlib Require Import Floats.
From stdpp Require Import base option list gmap strings.


(** ** Python values, exceptions and arrays *)

Inductive exn := TypeError | AttributeError | ValueError | IndexError.

Inductive outcome (A : Type) :=
  | Returned (a : A)
  | Raised (e : exn).
Arguments Returned {A} a.
Arguments Raised {A} e.

#[global] Instance outcome_ret : MRet outcome := fun A a => Returned a.
#[global] Instance outcome_bind : MBind outcome := fun A B f m =>
  match m with Returned a => f a | Raised e => Raised e end.

Abbreviation vec := (list float).
Abbreviation mat := (list (list float)).

(** A heap location, and what a Python expression evaluates to. *)
Abbreviation loc := positive.

Inductive pyval :=
  | PyNone
  | PyRef (l : loc).

(** The [error] argument of [Nuance(...)]: [None], a scalar or an array. *)
Inductive pyerror :=
  | ErrNone
  | ErrScalar (e : float)
  | ErrArray (e : vec).

(** The [diag] argument of [tinygp.GaussianProcess]. *)
Inductive diag :=
  | DiagScalar (d : float)
  | DiagArray (d : vec).

Module F64.

(** [np_le x y]: [x] is below [y] in the order numpy's reductions use,
    where a NaN dominates every value ([np.max] propagates NaN). *)
Definition np_le (x y : float) : bool := (is_nan y || (x <=? y)%float).

Definition sf_nan (s : spec_float) : bool :=
  match s with S754_nan => true | _ => false end.


End F64.

(** [a[i]] on a numpy array with a non-negative index. *)
Definition index {A} (a : list A) (i : nat) : outcome A :=
  match a !! i with Some x => Returned x | None => Raised IndexError end.

(** [a[i, j]]. *)
Definition index2 {A} (a : list (list A)) (i j : nat) : outcome A :=
  r ← index a i; index r j.

(** [a[-1]] and [a[-1, -1]]. *)
Definition index_last {A} (a : list A) : outcome A :=
  match last a with Some x => Returned x | None => Raised IndexError end.

Definition index_last2 {A} (a : list (list A)) : outcome A :=
  r ← index_last a; index_last r.

(** Indexing inside a jitted function: jax clamps an index that is out of
    range instead of raising. *)
Definition jnp_at (a : vec) (i : nat) : float :=
  default nan (a !! (i `min` pred (length a))).

Definition jnp_at2 (a : mat) (i j : nat) : float :=
  jnp_at (default [] (a !! (i `min` pred (length a)))) j.

(** [a[mask]] for a boolean [mask]: the entries (rows, for a 2-D array) where
    the mask holds; numpy raises [IndexError] when the lengths differ. *)
Definition select {A} (a : list A) (msk : list bool) : list A :=
  (filter (fun xb => snd xb = true) (zip a msk)).*1.

Definition bool_index {A} (a : list A) (msk : list bool) : outcome (list A) :=
  if decide (length a = length msk) then Returned (select a msk)
  else Raised IndexError.

(** [a[:, mask]]. *)
Fixpoint bool_index_cols {A} (a : list (list A)) (msk : list bool)
  : outcome (list (list A)) :=
  match a with
  | [] => Returned []
  | r :: a' =>
      r' ← bool_index r msk;
      a'' ← bool_index_cols a' msk;
      Returned (r' :: a'')
  end.

Definition zeros_like (a : vec) : vec := map (fun _ => 0%float) a.
Definition ones_like (a : vec) : vec := map (fun _ => 1%float) a.

(** [np.atleast_2d] of a 1-D array: a single row. *)
Definition atleast_2d (a : vec) : mat := [a].

Definition vstack (A : mat) (m : vec) : mat := A ++ [m].

(** [jnp.hstack([A, c[:, None]])]: [c] becomes the last column. *)
Definition hstack (A : mat) (c : vec) : mat :=
  zip_with (fun r x => r ++ [x]) A c.

(** [A.T]. *)
Definition transpose (A : mat) : mat :=
  match A with
  | [] => []
  | r :: _ => imap (fun j _ => omap (fun row : list float => row !! j) A) r
  end.

Definition vsub (a b : vec) : vec := zip_with PrimFloat.sub a b.

(** [A.shape] of a 2-D array. *)
Definition shape (A : mat) : nat * nat :=
  (length A, match A with r :: _ => length r | [] => 0%nat end).

(** [np.unravel_index(k, shape)] for a 2-D shape, in row-major order. *)
Definition unravel_index (k : nat) (sh : nat * nat) : nat * nat :=
  (k / snd sh, k mod snd sh)%nat.

(** [np.argmax] of the flattened array: numpy scans from the left, keeps the
    first entry that no later entry exceeds, and stops at the first NaN. An
    empty array raises [ValueError]. *)
Fixpoint argmax_from (mp : float) (best i : nat) (a : vec) : nat :=
  match a with
  | [] => best
  | x :: a' =>
      if is_nan mp then best
      else if negb (x <=? mp)%float then argmax_from x i (S i) a'
      else argmax_from mp best (S i) a'
  end.

Definition argmax (a : vec) : outcome nat :=
  match a with
  | [] => Raised ValueError
  | x :: a' => Returned (argmax_from x 0 1 a')
  end.

(** [ll[depths < 0] = ll0]. *)
Definition assign_where_negative (depths ll : mat) (ll0 : float) : mat :=
  zip_with (zip_with (fun d l => if (d <? 0)%float then ll0 else l)) depths ll.

(** [vars[~np.isfinite(vars)] = 1e25]; the literal denotes the binary64
    value nearest to 10^25, as it does in Python. *)
#[local] Set Warnings "-inexact-float".
Definition sentinel : float := 1e25%float.
#[local] Set Warnings "inexact-float".

Definition sanitize (v : float) : float :=
  if is_finite v then v else sentinel.

(** ** The result container ([nuance.search_data.SearchData])

    The class is declared in a sibling module; these are the attributes
    that [nuance.py] passes to its constructor, reads or assigns. *)
Record SearchData := mkSearchData {
  sd_t0s : vec;
  sd_Ds : vec;
  sd_ll : mat;
  sd_z : mat;
  sd_vz : mat;
  sd_ll0 : float;
  sd_periods : option vec;
  sd_Q_snr : option vec;
  sd_Q_ll : option vec;
  sd_Q_params : option mat;
  sd_llv : option mat;
  sd_llc : option mat
}.

(** [SearchData(t0s=.., Ds=.., ll=.., z=.., vz=.., ll0=..)]. *)
Definition SearchData_new (t0s Ds : vec) (ll z vz : mat) (ll0 : float)
  : SearchData :=
  mkSearchData t0s Ds ll z vz ll0 None None None None None None.

(** The entry [A[i, j]] of a grid, when there is one. *)
Definition cell (A : mat) (i j : nat) : option float :=
  r ← A !! i; r !! j.

(** Every row of [A] has [c] entries. *)
Definition rows_of (c : nat) (A : mat) : Prop :=
  Forall (fun r => length r = c) A.

(** ** What the module imports

    [tinygp] (kernels, the Gaussian process with its solver), [jax.numpy]'s
    linear algebra, numpy's mean, the sibling modules [utils]
    (templates and phase folding) and [search_data] (the fold
    aggregation), and the power function of the C library, which Python
    and numpy call for [e ** 2] on a scalar. *)
Class Externals := {
  Kernel : Type;
  Constant : float -> Kernel;
  GP : Type;
  GaussianProcess : Kernel -> vec -> diag -> float -> GP;
  solve_triangular : GP -> vec -> vec;
  solve_triangular_2d : GP -> mat -> mat;
  log_probability : GP -> vec -> float;
  matmul : mat -> mat -> mat;
  matvec : mat -> vec -> vec;
  vecmat : vec -> mat -> vec;
  lstsq : mat -> vec -> vec;
  inv : mat -> mat;
  np_mean : mat -> float;
  single_transit : vec -> float -> float -> vec;
  transit : vec -> float -> float -> float -> option float -> vec;
  phase : vec -> float -> float -> vec;
  fold_ll : SearchData -> float -> vec * mat * mat;
  pow2 : float -> float
}.

(** ** Sessions, the heap and the method monad *)

Section Model.
Context {E : Externals}.

(** The attributes of a [Nuance] object. [nu_eval_m] holds what the closure
    [eval_m] captured when [_compute_L] ran ([Liy] and [LiX]); it is [None]
    for a session built with [compute=False], which has no [eval_m]
    attribute. [nu_search_data] is [None] or a reference. *)
Record Nuance := mkNuance {
  nu_time : vec;
  nu_flux : vec;
  nu_error : pyerror;
  nu_kernel : option Kernel;
  nu_mean : float;
  nu_X : mat;
  nu_gp : GP;
  nu_eval_m : option (vec * mat);
  nu_search_data : option loc
}.

Inductive obj :=
  | ONuance (nu : Nuance)
  | OSearchData (sd : SearchData).

Local Abbreviation heap := (gmap loc obj).

(** A method: from the heap to a result or an exception, and the heap it
    leaves (what was written before an exception stays written). *)
Definition M (A : Type) : Type := heap -> outcome A * heap.

#[global] Instance M_ret : MRet M := fun A a h => (Returned a, h).
#[global] Instance M_bind : MBind M := fun A B f m h =>
  match m h with
  | (Returned a, h') => f a h'
  | (Raised e, h') => (Raised e, h')
  end.

Definition lift {A} (o : outcome A) : M A := fun h => (o, h).

Definition alloc (o : obj) : M loc := fun h =>
  let l := fresh (dom h) in (Returned l, <[l := o]> h).

Definition load_nuance (l : loc) : M Nuance := fun h =>
  match h !! l with
  | Some (ONuance nu) => (Returned nu, h)
  | _ => (Raised AttributeError, h)
  end.

Definition load_sd (l : loc) : M SearchData := fun h =>
  match h !! l with
  | Some (OSearchData sd) => (Returned sd, h)
  | _ => (Raised AttributeError, h)
  end.

Definition store (l : loc) (o : obj) : M unit := fun h =>
  (Returned tt, <[l := o]> h).

(** [obj.attr = ...] on a [SearchData] whose new contents [f] computes from
    the current ones. *)
Definition update_sd (l : loc) (f : SearchData -> outcome SearchData)
  : M unit :=
  sd ← load_sd l; sd' ← lift (f sd); store l (OSearchData sd').

(** Attribute assignments. *)
Definition set_search_data (nu : Nuance) (r : option loc) : Nuance :=
  mkNuance (nu_time nu) (nu_flux nu) (nu_error nu) (nu_kernel nu)
    (nu_mean nu) (nu_X nu) (nu_gp nu) (nu_eval_m nu) r.

Definition set_eval_m (nu : Nuance) (c : option (vec * mat)) : Nuance :=
  mkNuance (nu_time nu) (nu_flux nu) (nu_error nu) (nu_kernel nu)
    (nu_mean nu) (nu_X nu) (nu_gp nu) c (nu_search_data nu).

Definition set_llv (sd : SearchData) (x : option mat) : SearchData :=
  mkSearchData (sd_t0s sd) (sd_Ds sd) (sd_ll sd) (sd_z sd) (sd_vz sd)
    (sd_ll0 sd) (sd_periods sd) (sd_Q_snr sd) (sd_Q_ll sd) (sd_Q_params sd)
    x (sd_llc sd).

Definition set_llc (sd : SearchData) (x : option mat) : SearchData :=
  mkSearchData (sd_t0s sd) (sd_Ds sd) (sd_ll sd) (sd_z sd) (sd_vz sd)
    (sd_ll0 sd) (sd_periods sd) (sd_Q_snr sd) (sd_Q_ll sd) (sd_Q_params sd)
    (sd_llv sd) x.

Definition set_periods (sd : SearchData) (x : option vec) : SearchData :=
  mkSearchData (sd_t0s sd) (sd_Ds sd) (sd_ll sd) (sd_z sd) (sd_vz sd)
    (sd_ll0 sd) x (sd_Q_snr sd) (sd_Q_ll sd) (sd_Q_params sd)
    (sd_llv sd) (sd_llc sd).

Definition set_t0s (sd : SearchData) (x : vec) : SearchData :=
  mkSearchData x (sd_Ds sd) (sd_ll sd) (sd_z sd) (sd_vz sd)
    (sd_ll0 sd) (sd_periods sd) (sd_Q_snr sd) (sd_Q_ll sd) (sd_Q_params sd)
    (sd_llv sd) (sd_llc sd).

Definition set_Q_snr (sd : SearchData) (x : option vec) : SearchData :=
  mkSearchData (sd_t0s sd) (sd_Ds sd) (sd_ll sd) (sd_z sd) (sd_vz sd)
    (sd_ll0 sd) (sd_periods sd) x (sd_Q_ll sd) (sd_Q_params sd)
    (sd_llv sd) (sd_llc sd).

Definition set_Q_ll (sd : SearchData) (x : option vec) : SearchData :=
  mkSearchData (sd_t0s sd) (sd_Ds sd) (sd_ll sd) (sd_z sd) (sd_vz sd)
    (sd_ll0 sd) (sd_periods sd) (sd_Q_snr sd) x (sd_Q_params sd)
    (sd_llv sd) (sd_llc sd).

Definition set_Q_params (sd : SearchData) (x : option mat) : SearchData :=
  mkSearchData (sd_t0s sd) (sd_Ds sd) (sd_ll sd) (sd_z sd) (sd_vz sd)
    (sd_ll0 sd) (sd_periods sd) (sd_Q_snr sd) (sd_Q_ll sd) x
    (sd_llv sd) (sd_llc sd).

Definition set_ll (sd : SearchData) (x : mat) : SearchData :=
  mkSearchData (sd_t0s sd) (sd_Ds sd) x (sd_z sd) (sd_vz sd)
    (sd_ll0 sd) (sd_periods sd) (sd_Q_snr sd) (sd_Q_ll sd) (sd_Q_params sd)
    (sd_llv sd) (sd_llc sd).

Definition set_z (sd : SearchData) (x : mat) : SearchData :=
  mkSearchData (sd_t0s sd) (sd_Ds sd) (sd_ll sd) x (sd_vz sd)
    (sd_ll0 sd) (sd_periods sd) (sd_Q_snr sd) (sd_Q_ll sd) (sd_Q_params sd)
    (sd_llv sd) (sd_llc sd).

Definition set_vz (sd : SearchData) (x : mat) : SearchData :=
  mkSearchData (sd_t0s sd) (sd_Ds sd) (sd_ll sd) (sd_z sd) x
    (sd_ll0 sd) (sd_periods sd) (sd_Q_snr sd) (sd_Q_ll sd) (sd_Q_params sd)
    (sd_llv sd) (sd_llc sd).

(** Modelled from the spec: [SearchData.copy] is declared in the sibling
    module [search_data]; the store "supports copy() (deep, independent)":
    a new object with the contents of the old one. *)
Definition SearchData_copy (l : loc) : M loc :=
  sd ← load_sd l; alloc (OSearchData sd).

(** The four assignments that end [periodic_search], as one. *)
Definition set_folded (sd : SearchData) (periods snr max_ll : vec)
    (params : mat) : SearchData :=
  set_Q_params
    (set_Q_ll (set_Q_snr (set_periods sd (Some periods)) (Some snr))
       (Some max_ll))
    (Some params).

(** ** The model evaluator *)

(** The body of the closure [eval_m] of [_compute_L], for the captured
    [Liy] and [LiX]; [self.X], [self.gp] and [self.flux] are read from the
    session. Returns [(log-likelihood, w, v)]. *)
Definition eval_m_body (nu : Nuance) (Liy : vec) (LiX : mat) (m : vec)
  : float * vec * mat :=
  let Xm := vstack (nu_X nu) m in
  let Lim := solve_triangular (nu_gp nu) m in
  let LiXm := hstack LiX Lim in
  let LiXmT := transpose LiXm in
  let LimX2 := matmul LiXmT LiXm in
  let w := lstsq LimX2 (matvec LiXmT Liy) in
  let v := inv LimX2 in
  (log_probability (nu_gp nu) (vsub (nu_flux nu) (vecmat w Xm)), w, v).

Definition _compute_L (nu : Nuance) : Nuance :=
  let Liy := solve_triangular (nu_gp nu) (nu_flux nu) in
  let LiX := solve_triangular_2d (nu_gp nu) (transpose (nu_X nu)) in
  set_eval_m nu (Some (Liy, LiX)).

(** The attribute access [self.eval_m]. *)
Definition eval_m (nu : Nuance) : outcome (vec -> float * vec * mat) :=
  match nu_eval_m nu with
  | Some (Liy, LiX) => Returned (eval_m_body nu Liy LiX)
  | None => Raised AttributeError
  end.

(** [error**2]: [None ** 2] raises; a scalar goes through the C library's
    [pow(e, 2)], which need not be the rounded product [e * e]; a numpy
    array with the exponent 2 is squared entry by entry ([np.square]). *)
Definition squared (error : pyerror) : outcome diag :=
  match error with
  | ErrNone => Raised TypeError
  | ErrScalar e => Returned (DiagScalar (pow2 e))
  | ErrArray e => Returned (DiagArray (map (fun x => (x * x)%float) e))
  end.

(** [Nuance(time, flux, error=None, kernel=None, X=None, compute=True,
    mean=0.0)]; an argument left at its default is passed here as the
    default's value. *)
Definition __init__ (time flux : vec) (error : pyerror)
    (kernel : option Kernel) (X : option mat) (compute : bool) (mean : float)
  : M loc :=
  let X' := match X with
            | None => atleast_2d (ones_like time)
            | Some X => X
            end in
  let kernel' := match kernel with
                 | None => Constant 0%float
                 | Some k => k
                 end in
  d ← lift (squared error);
  let gp := GaussianProcess kernel' time d mean in
  let nu := mkNuance time flux error kernel mean X' gp None None in
  alloc (ONuance (if compute then _compute_L nu else nu)).

(** The property [ll0]. *)
Definition ll0 (nu : Nuance) : outcome float :=
  ev ← eval_m nu; mret (ev (zeros_like (nu_time nu))).1.1.

(** ** Linear search *)

(** The inner function [eval_transit] of [linear_search]: depth, variance
    and log-likelihood of one cell. *)
Definition eval_transit (nu : Nuance) (ev : vec -> float * vec * mat)
    (t0 D : float) : float * float * float :=
  let n := length (nu_X nu) in
  let m := single_transit (nu_time nu) t0 D in
  let '(_ll, w, v) := ev m in
  (jnp_at w n, jnp_at2 v n n, _ll).

(** The three grids the loop of [linear_search] fills, before the
    policies: [jax.vmap] maps over the durations, the loop over the
    epochs. *)
Definition raw_grid (nu : Nuance) (ev : vec -> float * vec * mat)
    (t0s Ds : vec) : list (list (float * float * float)) :=
  map (fun t0 => map (eval_transit nu ev t0) Ds) t0s.

(** What [linear_search] computes between the loop and the constructor
    call: the sign policy on [ll], the variance sanitation on [vars], and
    the [SearchData] built from them. [ev] is [self.eval_m] and [ll0] the
    value of the property [self.ll0]. *)
Definition search_surface (nu : Nuance) (ev : vec -> float * vec * mat)
    (t0s Ds : vec) (positive : bool) (ll0 : float) : SearchData :=
  let cells := raw_grid nu ev t0s Ds in
  let depths := map (map (fun c => c.1.1)) cells in
  let vars := map (map (fun c => c.1.2)) cells in
  let ll := map (map (fun c => c.2)) cells in
  let ll := if positive
            then assign_where_negative depths ll
                   (ev (zeros_like (nu_time nu))).1.1
            else ll in
  let vars := map (map sanitize) vars in
  SearchData_new t0s Ds ll depths vars ll0.

(** [linear_search(t0s, Ds, positive=True, progress=True)]. The progress
    bar does not take part. Every path reads [self.eval_m] (at the latest
    for [self.ll0]) and nothing is written before, so the attribute is read
    once, first. The method ends without a [return]. *)
Definition linear_search (self : loc) (t0s Ds : vec) (positive : bool)
  : M pyval :=
  nu ← load_nuance self;
  ev ← lift (eval_m nu);
  ll0 ← lift (ll0 nu);
  sd ← alloc (OSearchData (search_surface nu ev t0s Ds positive ll0));
  store self (ONuance (set_search_data nu (Some sd)));;
  mret PyNone.

(** ** Solving one candidate *)

Definition solve (nu : Nuance) (t0 D : float) (P : option float)
  : outcome (vec * mat) :=
  let m := transit (nu_time nu) t0 D 1%float P in
  ev ← eval_m nu;
  mret ((ev m).1.2, (ev m).2).

Definition depth (nu : Nuance) (t0 D : float) (P : option float)
  : outcome (float * float) :=
  wv ← solve nu t0 D P;
  w ← index_last wv.1;
  v ← index_last2 wv.2;
  mret (w, sqrt v).

Definition snr (nu : Nuance) (t0 D : float) (P : option float)
  : outcome float :=
  wdw ← depth nu t0 D P;
  mret (wdw.1 / wdw.2)%float.

(** ** Periodic search *)

(** One turn of the loop of [periodic_search]: the SNR, the parameters
    [(Ti, Dj, P)] and [max_ll] of period [P]. *)
Definition search_period (nu : Nuance) (sd : SearchData) (P : float)
  : outcome (float * vec * float) :=
  let '(phase, _, P2) := fold_ll sd P in
  k ← argmax (concat P2);
  let '(i, j) := unravel_index k (shape P2) in
  ph ← index phase i;
  let Ti := (ph * P)%float in
  Dj ← index (sd_Ds sd) j;
  s ← snr nu Ti Dj (Some P);
  c ← index2 P2 i j;
  mret (s, [Ti; Dj; P], (c - np_mean P2)%float).

(** The loop over [enumerate(periods)], writing entry [p] of the three
    preallocated arrays. *)
Fixpoint period_loop (nu : Nuance) (sd : SearchData)
    (ps : list (nat * float)) (st : vec * mat * vec)
  : outcome (vec * mat * vec) :=
  match ps with
  | [] => Returned st
  | (p, P) :: ps' =>
      r ← search_period nu sd P;
      period_loop nu sd ps'
        (<[p := r.1.1]> st.1.1, <[p := r.1.2]> st.1.2, <[p := r.2]> st.2)
  end.

Definition enumerate {A} (l : list A) : list (nat * A) := imap pair l.

(** [periodic_search(periods, progress=True)]. *)
Definition periodic_search (self : loc) (periods : vec) : M pyval :=
  nu ← load_nuance self;
  old ← lift (match nu_search_data nu with
              | Some l => Returned l
              | None => Raised AttributeError
              end);
  new ← SearchData_copy old;
  sd ← load_sd new;
  let n := length periods in
  let snr0 := replicate n 0%float in
  let max_ll0 := snr0 in
  let params0 := replicate n [0%float; 0%float; 0%float] in
  st ← lift (period_loop nu sd (enumerate periods) (snr0, params0, max_ll0));
  update_sd new (fun sd => Returned (set_periods sd (Some periods)));;
  update_sd new (fun sd => Returned (set_Q_snr sd (Some st.1.1)));;
  update_sd new (fun sd => Returned (set_Q_ll sd (Some st.2)));;
  update_sd new (fun sd => Returned (set_Q_params sd (Some st.1.2)));;
  mret (PyRef new).

(** ** Masking *)

(** [np.abs(ph) > 2 * D]. *)
Definition outside (D : float) (ph : vec) : list bool :=
  map (fun p => (2 * D <? abs p)%float) ph.

(** [mask(t0, D, P)]. *)
Definition mask (self : loc) (t0 D P : float) : M pyval :=
  nu ← load_nuance self;
  old ← lift (match nu_search_data nu with
              | Some l => Returned l
              | None => Raised AttributeError
              end);
  search_data ← SearchData_copy old;
  sd ← load_sd search_data;
  let msk := outside D (phase (sd_t0s sd) t0 P) in
  update_sd search_data (fun sd => Returned (set_llv sd None));;
  update_sd search_data (fun sd => Returned (set_llc sd None));;
  update_sd search_data (fun sd => Returned (set_periods sd None));;
  update_sd search_data (fun sd =>
    x ← bool_index (sd_t0s sd) msk; mret (set_t0s sd x));;
  update_sd search_data (fun sd =>
    x ← bool_index (sd_ll sd) msk; mret (set_ll sd x));;
  update_sd search_data (fun sd =>
    x ← bool_index (sd_z sd) msk; mret (set_z sd x));;
  update_sd search_data (fun sd =>
    x ← bool_index (sd_vz sd) msk; mret (set_vz sd x));;
  let msk := outside D (phase (nu_time nu) t0 P) in
  error ← lift (match nu_error nu with
                | ErrArray e => e' ← bool_index e msk; mret (ErrArray e')
                | e => Returned e
                end);
  time ← lift (bool_index (nu_time nu) msk);
  flux ← lift (bool_index (nu_flux nu) msk);
  X ← lift (bool_index_cols (nu_X nu) msk);
  new ← __init__ time flux error (nu_kernel nu) (Some X) true 0%float;
  nu' ← load_nuance new;
  store new (ONuance (set_search_data nu' (Some search_data)));;
  mret (PyRef new).

(** ** Reading the heap *)

(** [self.search_data], dereferenced. *)
Definition search_data_of (h : heap) (self : loc) : option SearchData :=
  match h !! self with
  | Some (ONuance nu) =>
      match nu_search_data nu with
      | Some l =>
          match h !! l with
          | Some (OSearchData sd) => Some sd
          | _ => None
          end
      | None => None
      end
  | _ => None
  end.

(** The object a returned reference denotes. *)
Definition deref (h : heap) (v : outcome pyval) : option obj :=
  match v with
  | Returned (PyRef l) => h !! l
  | _ => None
  end.

(** ** Contracts of the imports

    What jax.numpy guarantees about the shapes [eval_m] returns for a
    regressor as long as the time series ([w] has one coefficient per row of
    the augmented design matrix, [v] is square of that size), and what the
    fold aggregation returns: a non-empty surface with one row per phase
    and one column per duration. *)
Definition shaped (nu : Nuance) (ev : vec -> float * vec * mat) : Prop :=
  forall m, length m = length (nu_time nu) ->
    length (ev m).1.2 = S (length (nu_X nu)) /\
    length (ev m).2 = S (length (nu_X nu)) /\
    rows_of (S (length (nu_X nu))) (ev m).2.

Definition template_length (nu : Nuance) : Prop :=
  (forall t0 D, length (single_transit (nu_time nu) t0 D)
                = length (nu_time nu)) /\
  (forall t0 D P, length (transit (nu_time nu) t0 D 1%float P)
                  = length (nu_time nu)).

Definition fold_ok (sd : SearchData) (P : float) : Prop :=
  let '(phase, _, P2) := fold_ll sd P in
  P2 <> [] /\ sd_Ds sd <> [] /\
  length P2 = length phase /\ rows_of (length (sd_Ds sd)) P2.

End Model.

Abbreviation heap := (gmap loc obj).

#[local] Set Warnings "-inexact-float".

(** ** A small stand-in for the imports

    Enough of the imported libraries to run the model on examples: white
    noise of the given variance (whitening divides by the standard
    deviation), dot products summed from the left, the normal equations of
    one baseline regressor and the template solved by the 2x2 adjugate, a
    box template, a phase that is the distance to the epoch brought back
    into half a period, a fold that keeps every epoch in a bin of its
    own, and the product for [pow(e, 2)] (the two agree at the error 1 of
    the examples). *)
Module Toy.

Definition fsum (a : vec) : float := foldl PrimFloat.add 0%float a.
Definition dot (a b : vec) : float := fsum (zip_with PrimFloat.mul a b).
Definition of_nat (n : nat) : float := of_uint63 (Uint63.of_Z (Z.of_nat n)).

Definition sigma (d : diag) (i : nat) : float :=
  match d with
  | DiagScalar x => sqrt x
  | DiagArray a => sqrt (default 1%float (a !! i))
  end.

Definition whiten (d : diag) (y : vec) : vec :=
  imap (fun i x => (x / sigma d i)%float) y.

Definition inv2 (A : mat) : mat :=
  match A with
  | [[a; b]; [c; d]] =>
      let det := (a * d - b * c)%float in
      [[(d / det)%float; (- b / det)%float];
       [(- c / det)%float; (a / det)%float]]
  | _ => map (map (fun _ => nan)) A
  end.

Definition mv (A : mat) (x : vec) : vec := map (fun r => dot r x) A.

(** Least squares: the inverse where the determinant is not zero, and the
    minimum-norm solution of a singular symmetric system otherwise. *)
Definition lstsq2 (A : mat) (y : vec) : vec :=
  match A with
  | [[a; b]; [c; d]] =>
      if is_zero (a * d - b * c)%float then
        let tr := (a + d)%float in
        if is_zero tr then zeros_like y
        else mv (map (map (fun x => (x / (tr * tr))%float)) A) y
      else mv (inv2 A) y
  | _ => mv (inv2 A) y
  end.

(** A box of height [d] and width [D] centred on [t0]. *)
Definition box (d : float) (time : vec) (t0 D : float) : vec :=
  map (fun t => if (abs (t - t0) <=? D / 2)%float then d else 0%float) time.

(** Brings [x] back into [(-P/2, P/2]], for the few windows of the
    examples. *)
Fixpoint wrap (fuel : nat) (P x : float) : float :=
  match fuel with
  | O => x
  | S fuel' =>
      if (P / 2 <? x)%float then wrap fuel' P (x - P)%float
      else if (x <=? - (P / 2))%float then wrap fuel' P (x + P)%float
      else x
  end.

Definition centred (time : vec) (t0 P : float) : vec :=
  map (fun t => wrap 64 P (t - t0)%float) time.

#[export] Instance externals : Externals := {|
  Kernel := float;
  Constant := fun c => c;
  GP := diag;
  GaussianProcess := fun _ _ d _ => d;
  solve_triangular := whiten;
  solve_triangular_2d := fun d A => transpose (map (whiten d) (transpose A));
  log_probability := fun d r =>
    (- (dot (whiten d r) (whiten d r) / 2))%float;
  matmul := fun A B => map (fun r => map (dot r) (transpose B)) A;
  matvec := mv;
  vecmat := fun x A => map (dot x) (transpose A);
  lstsq := lstsq2;
  inv := inv2;
  np_mean := fun A => (fsum (concat A) / of_nat (length (concat A)))%float;
  single_transit := box 1%float;
  transit := fun time t0 D d P =>
    match P with
    | None => box d time t0 D
    | Some P =>
        map (fun ph => if (abs ph <=? D / 2)%float then d else 0%float)
          (centred time t0 P)
    end;
  phase := centred;
  fold_ll := fun sd P =>
    (map (fun t => (t / P)%float) (sd_t0s sd), sd_ll sd, sd_ll sd);
  pow2 := fun e => (e * e)%float
|}.

End Toy.

(** ** The model functions: [_models], [models], [mu], [gp_optimization]

    They use two more imports: the conditioning of the Gaussian process
    ([gp.condition]) and the minimiser of jaxopt. A dictionary of
    hyper-parameters is a finite map from names to values. *)
Class ModelImports {E : Externals} := {
  (** [gp.condition(y)[1].mean] *)
  condition_mean : GP -> vec -> vec;
  (** [gp.condition(y, X_test).gp.loc] *)
  condition_loc : GP -> vec -> vec -> vec;
  (** the values of hyper-parameters *)
  Param : Type;
  (** [jaxopt.ScipyMinimize(fun=f).run(start).params] *)
  scipy_minimize :
    (gmap string Param -> float) -> gmap string Param -> gmap string Param
}.

(** A dictionary lookup that may raise [KeyError]. *)
Inductive keyed (A : Type) :=
  | Found (a : A)
  | KeyError (k : string).
Arguments Found {A} a.
Arguments KeyError {A} k.

Section Models.
Context {E : Externals} {I : ModelImports}.

(** [w[0:-1]]. *)
Definition but_last (w : vec) : vec := take (length w - 1) w.

Definition vadd (a b : vec) : vec := zip_with PrimFloat.add a b.

(** [np.ones_like(self.time).astype(bool)] when [mask] is [None]. *)
Definition default_mask (nu : Nuance) (mask : option (list bool))
  : list bool :=
  match mask with
  | None => map (fun _ => true) (nu_time nu)
  | Some m => m
  end.

(** [_models(m)]: the linear, astrophysical and noise components. *)
Definition _models (nu : Nuance) (m : vec) : outcome (vec * vec * vec) :=
  ev ← eval_m nu;
  let w := (ev m).1.2 in
  let mean := vecmat (but_last w) (nu_X nu) in
  wl ← index_last w;
  let signal := map (fun x => (x * wl)%float) m in
  let noise :=
    condition_mean (nu_gp nu) (vsub (vsub (nu_flux nu) mean) signal) in
  mret (mean, signal, noise).

(** [models(t0, D, P=None)]. *)
Definition models (nu : Nuance) (t0 D : float) (P : option float)
  : outcome (vec * vec * vec) :=
  _models nu (transit (nu_time nu) t0 D 1%float P).

(** [mu(mask=None)]. *)
Definition mu (nu : Nuance) (mask : option (list bool)) : outcome vec :=
  let msk := default_mask nu mask in
  masked_x ← bool_index (nu_time nu) msk;
  masked_y ← bool_index (nu_flux nu) msk;
  masked_X ← bool_index_cols (nu_X nu) msk;
  ev ← eval_m nu;
  let w := but_last (ev (zeros_like (nu_time nu))).1.2 in
  mret (vadd
          (condition_loc (nu_gp nu) (vsub masked_y (vecmat w masked_X))
             (nu_time nu))
          (vecmat w (nu_X nu))).

(** The closures of [gp_optimization(build_gp, mask=None)], for the masked
    arrays it captured. *)
Definition nll_w (build_gp : gmap string Param -> vec -> GP)
    (masked_x masked_y : vec) (masked_X : mat) (params : gmap string Param)
  : float * vec :=
  let gp := build_gp params masked_x in
  let Liy := solve_triangular gp masked_y in
  let LiX := solve_triangular_2d gp (transpose masked_X) in
  let LiXT := transpose LiX in
  let LiX2 := matmul LiXT LiX in
  let w := lstsq LiX2 (matvec LiXT Liy) in
  let nll := (- log_probability gp (vsub masked_y (vecmat w masked_X)))%float in
  (nll, w).

Definition nll (build_gp : gmap string Param -> vec -> GP)
    (masked_x masked_y : vec) (masked_X : mat) (params : gmap string Param)
  : float :=
  (nll_w build_gp masked_x masked_y masked_X params).1.

Definition mu_of (nu : Nuance) (build_gp : gmap string Param -> vec -> GP)
    (masked_x masked_y : vec) (masked_X : mat) (params : gmap string Param)
  : vec :=
  let gp := build_gp params masked_x in
  let w := (nll_w build_gp masked_x masked_y masked_X params).2 in
  vadd (condition_loc gp (vsub masked_y (vecmat w masked_X)) (nu_time nu))
    (vecmat w (nu_X nu)).

(** [{k: init_params[k] for k in param_names}]. *)
Fixpoint start_of (init_params : gmap string Param) (param_names : list string)
  : keyed (gmap string Param) :=
  match param_names with
  | [] => Found ∅
  | k :: ks =>
      match init_params !! k with
      | None => KeyError k
      | Some v =>
          match start_of init_params ks with
          | Found m => Found (<[k := v]> m)
          | KeyError k' => KeyError k'
          end
      end
  end.

(** [optimize(init_params, param_names=None)] for the objective [nll];
    [dict(a, **b)] is [b ∪ a], the entries of [b] first. The state the
    solver prints does not take part. *)
Definition optimize (nll : gmap string Param -> float)
    (init_params : gmap string Param) (param_names : option (list string))
  : keyed (gmap string Param) :=
  let inner := fun theta => nll (theta ∪ init_params) in
  let param_names := match param_names with
                     | None => (map_to_list init_params).*1
                     | Some ns => ns
                     end in
  match start_of init_params param_names with
  | KeyError k => KeyError k
  | Found start =>
      let soln := scipy_minimize inner start in
      Found (soln ∪ init_params)
  end.

(** [gp_optimization(build_gp, mask=None)] returns
    [(optimize, mu, nll)]. *)
Definition gp_optimization (nu : Nuance)
    (build_gp : gmap string Param -> vec -> GP) (mask : option (list bool))
  : outcome ((gmap string Param -> option (list string)
                -> keyed (gmap string Param))
             * (gmap string Param -> vec)
             * (gmap string Param -> float)) :=
  let msk := default_mask nu mask in
  masked_x ← bool_index (nu_time nu) msk;
  masked_y ← bool_index (nu_flux nu) msk;
  masked_X ← bool_index_cols (nu_X nu) msk;
  mret (optimize (nll build_gp masked_x masked_y masked_X),
        mu_of nu build_gp masked_x masked_y masked_X,
        nll build_gp masked_x masked_y masked_X).

End Models.

(** The stand-in completed: the conditioned noise is zero, and the
    minimiser doubles every parameter it is given. *)
Module ToyModels.

#[export] Instance imports : @ModelImports Toy.externals := {|
  condition_mean := fun _ y => zeros_like y;
  condition_loc := fun _ _ t => zeros_like t;
  Param := float;
  scipy_minimize := fun _ start => (fun v => (2 * v)%float) <$> start
|}.

End ToyModels.

(** The minimiser returns a dictionary with the names of its starting
    point (jaxopt keeps the structure of the parameters). *)
Definition minimiser_keeps_names {E : Externals} {I : ModelImports} : Prop :=
  forall (f : gmap string Param -> float) (start : gmap string Param),
    dom (scipy_minimize f start) = dom start.

(** ** Predicates on a search surface *)

(** Every stored variance is finite and positive. *)
Definition variances_finite_positive (sd : SearchData) : Prop :=
  forall i j v, cell (sd_vz sd) i j = Some v ->
    is_finite v = true /\ (0 <? v)%float = true.

(** The three grids have one row per epoch and one column per duration. *)
Definition grids_shaped (sd : SearchData) : Prop :=
  length (sd_ll sd) = length (sd_t0s sd) /\
  length (sd_z sd) = length (sd_t0s sd) /\
  length (sd_vz sd) = length (sd_t0s sd) /\
  rows_of (length (sd_Ds sd)) (sd_ll sd) /\
  rows_of (length (sd_Ds sd)) (sd_z sd) /\
  rows_of (length (sd_Ds sd)) (sd_vz sd).

(** The arrays of a session agree in length: one flux value, one column of
    the design matrix and, for an array of errors, one error per time; the
    session was built with an [error]. *)
Definition session_shaped {E : Externals} (nu : Nuance) : Prop :=
  length (nu_flux nu) = length (nu_time nu) /\
  rows_of (length (nu_time nu)) (nu_X nu) /\
  match nu_error nu with
  | ErrNone => False
  | ErrScalar _ => True
  | ErrArray e => length e = length (nu_time nu)
  end.

(** [utils.phase] returns one phase per time. *)
Definition phase_length {E : Externals} : Prop :=
  forall (a : vec) (t0 P : float), length (phase a t0 P) = length a.

(** [utils.phase] folds each time by itself: the phase of a time does not
    depend on the other times of the array. *)
Definition phase_pointwise {E : Externals} : Prop :=
  forall (t0 P : float), exists f : float -> float,
    forall a : vec, phase a t0 P = map f a.

(** ** Example sessions *)

Module Examples.
Import Toy.

(** Four samples with a dip at [t = 2], unit white noise, the default
    constant baseline: what [Nuance(time, flux, 1.0)] builds. *)
Definition nu_a : Nuance :=
  _compute_L
    (mkNuance [0; 1; 2; 3]%float [1; 1; 0.5; 1]%float (ErrScalar 1%float)
       None 0%float [[1; 1; 1; 1]%float] (DiagScalar 1%float) None None).

Definition h_a : heap := {[ 1%positive := ONuance nu_a ]}.

Definition ev_a : vec -> float * vec * mat :=
  match nu_eval_m nu_a with
  | Some (Liy, LiX) => eval_m_body nu_a Liy LiX
  | None => fun _ => (nan, [], [])
  end.

Definition t0s_a : vec := [1; 2; 5]%float.
Definition Ds_a : vec := [0.5; 1.5]%float.

(** A flat series with the baseline regressor [1.3]: a template that
    covers every sample is collinear with it. *)
Definition nu_b : Nuance :=
  _compute_L
    (mkNuance [0; 1; 2]%float [1; 1; 1]%float (ErrScalar 1%float)
       None 0%float [[1.3; 1.3; 1.3]%float] (DiagScalar 1%float) None None).

Definition h_b : heap := {[ 1%positive := ONuance nu_b ]}.

(** Three samples whose only baseline regressor is the template of the
    cell [(t0, D) = (2.25, 4)] itself:
    [X = np.atleast_2d(utils.single_transit(time, 2.25, 4))]. *)
Definition time_c : vec := [0; 1; 2]%float.
Definition flux_c : vec := [6; -1; 0]%float.
Definition X_c : mat := atleast_2d (single_transit time_c 2.25 4).
Definition h_c : heap :=
  (__init__ time_c flux_c (ErrScalar 1%float) None (Some X_c) true 0%float
     ∅).2.

(** The first session after [linear_search(t0s_a, Ds_a)]. *)
Definition h_s : heap := (linear_search 1%positive t0s_a Ds_a true h_a).2.
Definition nu_s : Nuance := set_search_data nu_a (Some 2%positive).
Definition sd_s : SearchData :=
  search_surface nu_a ev_a t0s_a Ds_a true
    (ev_a (zeros_like (nu_time nu_a))).1.1.
Definition periods_a : vec := [1.5; 3]%float.

End Examples.

(** Further example sessions. *)
Module MoreExamples.
Import Toy ToyModels Examples.

(** The first session after a search on an empty epoch grid. *)
Definition h_e : heap := (linear_search 1%positive [] Ds_a true h_a).2.
Definition sd_e : SearchData :=
  search_surface nu_a ev_a [] Ds_a true
    (ev_a (zeros_like (nu_time nu_a))).1.1.

(** The same series built with [compute=False]. *)
Definition h_n : heap :=
  (__init__ [0; 1; 2; 3]%float [1; 1; 0.5; 1]%float (ErrScalar 1%float)
     None None false 0%float ∅).2.

(** Two hyper-parameters and an objective. *)
Definition init_params_a : gmap string Param :=
  {[ "sigma"%string := 1%float; "scale"%string := 2%float ]}.
Definition objective_a (params : gmap string Param) : float :=
  match params !! "sigma"%string with
  | Some v => (v * v)%float
  | None => 0%float
  end.

End MoreExamples.

(** * Properties *)

(** ** Binary64 order *)

Module F64Facts.
Import F64.

Ltac sf_cases :=
  repeat match goal with
  | H : context [Z.compare ?a ?b] |- _ => destruct (Z.compare_spec a b)
  | |- context [Z.compare ?a ?b] => destruct (Z.compare_spec a b)
  | H : context [Pos.compare_cont Eq ?a ?b] |- _ =>
      change (Pos.compare_cont Eq a b) with (Pos.compare a b) in H;
      destruct (Pos.compare_spec a b)
  | |- context [Pos.compare_cont Eq ?a ?b] =>
      change (Pos.compare_cont Eq a b) with (Pos.compare a b);
      destruct (Pos.compare_spec a b)
  end.

Lemma SFleb_trans (x y z : spec_float) :
  SFleb x y = true -> SFleb y z = true -> SFleb x z = true.
Proof.
  unfold SFleb, SFcompare.
  destruct x as [[]|[]| |[] m1 e1], y as [[]|[]| |[] m2 e2],
           z as [[]|[]| |[] m3 e3];
    simpl; intros; try congruence; sf_cases; simpl in *;
    try congruence; try lia.
Qed.

Lemma SFleb_total (x y : spec_float) :
  sf_nan x = false -> sf_nan y = false ->
  SFleb x y = false -> SFleb y x = true.
Proof.
  unfold SFleb, SFcompare.
  destruct x as [[]|[]| |[] m1 e1], y as [[]|[]| |[] m2 e2];
    simpl; intros; try congruence; sf_cases; simpl in *;
    try congruence; try lia.
Qed.

Lemma SFeqb_refl_nan (x : spec_float) : SFeqb x x = negb (sf_nan x).
Proof.
  unfold SFeqb, SFcompare.
  destruct x as [[]|[]| |[] m e]; simpl; try reflexivity;
    rewrite Z.compare_refl;
    change (Pos.compare_cont Eq m m) with (Pos.compare m m);
    rewrite Pos.compare_refl; reflexivity.
Qed.

Lemma is_nan_spec (x : float) : is_nan x = sf_nan (Prim2SF x).
Proof.
  unfold is_nan.
  rewrite FloatAxioms.eqb_spec, SFeqb_refl_nan. apply negb_involutive.
Qed.

Lemma leb_trans (x y z : float) :
  (x <=? y)%float = true -> (y <=? z)%float = true -> (x <=? z)%float = true.
Proof. rewrite !leb_spec. apply SFleb_trans. Qed.

Lemma leb_total (x y : float) :
  is_nan x = false -> is_nan y = false ->
  (x <=? y)%float = false -> (y <=? x)%float = true.
Proof. rewrite !leb_spec, !is_nan_spec. apply SFleb_total. Qed.

Lemma leb_refl (x : float) : is_nan x = false -> (x <=? x)%float = true.
Proof.
  rewrite leb_spec, is_nan_spec. unfold SFleb, SFcompare.
  destruct (Prim2SF x) as [[]|[]| |[] m e]; simpl; intros; try congruence;
    rewrite Z.compare_refl;
    change (Pos.compare_cont Eq m m) with (Pos.compare m m);
    rewrite Pos.compare_refl; reflexivity.
Qed.

Lemma leb_nan_l (x y : float) : is_nan x = true -> (x <=? y)%float = false.
Proof.
  rewrite leb_spec, is_nan_spec. unfold SFleb, SFcompare.
  destruct (Prim2SF x); simpl; congruence.
Qed.

Lemma np_le_refl (x : float) : np_le x x = true.
Proof.
  unfold np_le. destruct (is_nan x) eqn:Ex; [reflexivity|].
  simpl. apply leb_refl, Ex.
Qed.

Lemma np_le_trans (x y z : float) :
  np_le x y = true -> np_le y z = true -> np_le x z = true.
Proof.
  unfold np_le. destruct (is_nan z) eqn:Ez; [reflexivity|]. simpl.
  destruct (is_nan y) eqn:Ey; simpl.
  - intros _ H. rewrite (leb_nan_l y z Ey) in H. discriminate.
  - apply leb_trans.
Qed.

(** Below a value that is not a NaN, the numpy order is [<=]. *)
Lemma np_le_leb (x y : float) :
  is_nan y = false -> np_le x y = true -> (x <=? y)%float = true.
Proof. unfold np_le. intros ->. simpl. auto. Qed.


(** The variance sanitation returns a finite value. *)
Lemma sanitize_finite (v : float) : is_finite (sanitize v) = true.
Proof.
  unfold sanitize. destruct (is_finite v) eqn:Ev; [exact Ev|].
  vm_compute. reflexivity.
Qed.

Lemma sanitize_id (v : float) : is_finite v = true -> sanitize v = v.
Proof. unfold sanitize. intros ->. reflexivity. Qed.

Lemma sanitize_sentinel (v : float) :
  is_finite v = false -> sanitize v = sentinel.
Proof. unfold sanitize. intros ->. reflexivity. Qed.





End F64Facts.

(** ** Grids *)

Section Grids.

Lemma map_fmap {A B} (f : A -> B) (l : list A) : map f l = f <$> l.
Proof. reflexivity. Qed.

Lemma cell_Some (A : mat) (i j : nat) (x : float) :
  cell A i j = Some x <-> exists r, A !! i = Some r /\ r !! j = Some x.
Proof.
  unfold cell. destruct (A !! i) as [r|]; simpl; split.
  - intros H. exists r. auto.
  - intros (r' & Hr & Hx). congruence.
  - discriminate.
  - intros (r' & Hr & _). discriminate.
Qed.

Lemma cell_map2 {A} (f : A -> float) (G : list (list A)) (i j : nat) r x :
  G !! i = Some r -> r !! j = Some x ->
  cell (map (map f) G) i j = Some (f x).
Proof.
  intros Hr Hx. unfold cell. rewrite map_fmap, list_lookup_fmap, Hr. simpl.
  rewrite map_fmap, list_lookup_fmap, Hx. reflexivity.
Qed.

Lemma cell_map2_inv {A} (f : A -> float) (G : list (list A)) (i j : nat) y :
  cell (map (map f) G) i j = Some y ->
  exists r x, G !! i = Some r /\ r !! j = Some x /\ y = f x.
Proof.
  unfold cell. rewrite map_fmap, list_lookup_fmap.
  destruct (G !! i) as [r|] eqn:Hr; simpl; [|discriminate].
  rewrite map_fmap, list_lookup_fmap.
  destruct (r !! j) as [x|] eqn:Hx; simpl; [|discriminate].
  intros [= <-]. exists r, x. auto.
Qed.

Lemma cell_map (f : float -> float) (A : mat) (i j : nat) :
  cell (map (map f) A) i j = f <$> cell A i j.
Proof.
  unfold cell. rewrite map_fmap, list_lookup_fmap.
  destruct (A !! i) as [r|]; simpl; [|reflexivity].
  rewrite map_fmap, list_lookup_fmap. reflexivity.
Qed.

Lemma cell_assign_where_negative depths ll ll0 i j d l :
  cell depths i j = Some d -> cell ll i j = Some l ->
  cell (assign_where_negative depths ll ll0) i j
  = Some (if (d <? 0)%float then ll0 else l).
Proof.
  intros (rd & Hd & Hdj)%cell_Some (rl & Hl & Hlj)%cell_Some.
  unfold cell, assign_where_negative.
  rewrite lookup_zip_with, Hd. simpl. rewrite Hl. simpl.
  rewrite lookup_zip_with, Hdj. simpl. rewrite Hlj. reflexivity.
Qed.

Lemma rows_of_map2 {A B} (f : A -> float) (c : B -> float -> A)
    (Ds : vec) (t0s : list B) :
  rows_of (length Ds) (map (map f) (map (fun t0 => map (c t0) Ds) t0s)).
Proof.
  unfold rows_of. induction t0s as [|t0 t0s IH]; simpl; constructor.
  - rewrite !length_map. reflexivity.
  - exact IH.
Qed.

Lemma rows_of_zip_with (f : float -> float -> float) (c : nat) (A B : mat) :
  rows_of c A -> rows_of c B -> rows_of c (zip_with (zip_with f) A B).
Proof.
  unfold rows_of. intros HA. revert B.
  induction HA as [|r A Hr HA IH]; intros B HB; [constructor|].
  destruct HB as [|r' B Hr' HB]; simpl; constructor.
  - rewrite length_zip_with. lia.
  - apply IH, HB.
Qed.

End Grids.

(** ** Running the methods *)

Section Runs.
Context {E : Externals}.

Lemma fresh_not_in (h : heap) (l : loc) (o : obj) :
  h !! l = Some o -> fresh (dom h) <> l.
Proof.
  intros Hl Heq. apply (is_fresh (dom h)). rewrite Heq.
  apply elem_of_dom. eauto.
Qed.

(** Reading [self.eval_m] succeeds exactly on a session that ran
    [_compute_L]. *)
Lemma eval_m_Returned (nu : Nuance) ev :
  eval_m nu = Returned ev ->
  exists Liy LiX, nu_eval_m nu = Some (Liy, LiX) /\
                  ev = eval_m_body nu Liy LiX.
Proof.
  unfold eval_m. destruct (nu_eval_m nu) as [[Liy LiX]|]; [|discriminate].
  intros [= <-]. eauto.
Qed.

(** The run of [linear_search] on a session that has its evaluator. *)
Lemma linear_search_run (h : heap) (self : loc) (nu : Nuance) ev
    (t0s Ds : vec) (positive : bool) :
  h !! self = Some (ONuance nu) -> eval_m nu = Returned ev ->
  linear_search self t0s Ds positive h
  = (Returned PyNone,
     <[self := ONuance (set_search_data nu (Some (fresh (dom h))))]>
       (<[fresh (dom h) := OSearchData
            (search_surface nu ev t0s Ds positive
               (ev (zeros_like (nu_time nu))).1.1)]> h)).
Proof.
  intros Hs He.
  unfold linear_search, mbind, M_bind, load_nuance, lift, ll0.
  rewrite Hs, He. reflexivity.
Qed.

Lemma linear_search_stored (h : heap) (self : loc) (nu : Nuance) ev
    (t0s Ds : vec) (positive : bool) :
  h !! self = Some (ONuance nu) -> eval_m nu = Returned ev ->
  search_data_of (linear_search self t0s Ds positive h).2 self
  = Some (search_surface nu ev t0s Ds positive
            (ev (zeros_like (nu_time nu))).1.1).
Proof.
  intros Hs He. rewrite (linear_search_run h self nu ev) by assumption.
  simpl. unfold search_data_of. rewrite lookup_insert_eq. simpl.
  rewrite lookup_insert_ne by (apply not_eq_sym, (fresh_not_in h self _ Hs)).
  rewrite lookup_insert_eq. reflexivity.
Qed.

End Runs.

(** ** Linear search *)

Section LinearSearch.
Context {E : Externals}.

Lemma raw_grid_cell (nu : Nuance) ev (t0s Ds : vec) (i j : nat) t0 D :
  t0s !! i = Some t0 -> Ds !! j = Some D ->
  exists r, raw_grid nu ev t0s Ds !! i = Some r /\
            r !! j = Some (eval_transit nu ev t0 D).
Proof.
  intros Ht HD. unfold raw_grid.
  exists (map (eval_transit nu ev t0) Ds). split.
  - rewrite map_fmap, list_lookup_fmap, Ht. reflexivity.
  - rewrite map_fmap, list_lookup_fmap, HD. reflexivity.
Qed.

Lemma raw_grid_cell_inv (nu : Nuance) ev (t0s Ds : vec) (i j : nat) r x :
  raw_grid nu ev t0s Ds !! i = Some r -> r !! j = Some x ->
  exists t0 D, t0s !! i = Some t0 /\ Ds !! j = Some D /\
               x = eval_transit nu ev t0 D.
Proof.
  unfold raw_grid. rewrite map_fmap, list_lookup_fmap.
  destruct (t0s !! i) as [t0|] eqn:Ht; simpl; [|discriminate].
  intros [= <-]. rewrite map_fmap, list_lookup_fmap.
  destruct (Ds !! j) as [D|] eqn:HD; simpl; [|discriminate].
  intros [= <-]. exists t0, D. auto.
Qed.

Lemma search_surface_shaped (nu : Nuance) ev (t0s Ds : vec) positive ll0 :
  grids_shaped (search_surface nu ev t0s Ds positive ll0).
Proof.
  unfold grids_shaped, search_surface, raw_grid. simpl.
  assert (Hl : forall f : float * float * float -> float,
    length (map (map f) (map (fun t0 => map (eval_transit nu ev t0) Ds) t0s))
    = length t0s) by (intros f; rewrite !length_map; reflexivity).
  assert (Hr : forall f : float * float * float -> float,
    rows_of (length Ds)
      (map (map f) (map (fun t0 => map (eval_transit nu ev t0) Ds) t0s)))
    by (intros f; apply rows_of_map2).
  repeat split.
  - destruct positive; [|apply Hl].
    unfold assign_where_negative. rewrite length_zip_with, !Hl. lia.
  - apply Hl.
  - rewrite length_map. apply Hl.
  - destruct positive; [|apply Hr].
    apply rows_of_zip_with; apply Hr.
  - apply Hr.
  - unfold rows_of. rewrite map_fmap, Forall_fmap.
    eapply Forall_impl; [apply (Hr (fun c => c.1.2))|].
    intros r Hlen. simpl. rewrite length_map. exact Hlen.
Qed.

(** C1, amended. With [positive=True], at every cell whose fitted depth is
    negative the stored log-likelihood is [ll0] and the stored depth is the
    fitted depth; the stored variance is the fitted variance when that is
    finite and the sentinel 1e25 when it is not, since the sanitation of
    line 131 runs on every cell. The sign policy itself touches neither
    grid: [z] and [vz] are those of the search run with
    [positive=False]. *)
Theorem linear_search_sign_policy (h : heap) (self : loc) (nu : Nuance) ev
    (t0s Ds : vec) (i j : nat) (t0 D : float) :
  h !! self = Some (ONuance nu) -> eval_m nu = Returned ev ->
  t0s !! i = Some t0 -> Ds !! j = Some D ->
  ((eval_transit nu ev t0 D).1.1 <? 0)%float = true ->
  exists sd sd',
    (linear_search self t0s Ds true h).1 = Returned PyNone /\
    search_data_of (linear_search self t0s Ds true h).2 self = Some sd /\
    search_data_of (linear_search self t0s Ds false h).2 self = Some sd' /\
    cell (sd_ll sd) i j = Some (sd_ll0 sd) /\
    cell (sd_z sd) i j = Some (eval_transit nu ev t0 D).1.1 /\
    cell (sd_vz sd) i j = Some (sanitize (eval_transit nu ev t0 D).1.2) /\
    (is_finite (eval_transit nu ev t0 D).1.2 = true ->
     cell (sd_vz sd) i j = Some (eval_transit nu ev t0 D).1.2) /\
    (is_finite (eval_transit nu ev t0 D).1.2 = false ->
     cell (sd_vz sd) i j = Some sentinel) /\
    sd_z sd' = sd_z sd /\ sd_vz sd' = sd_vz sd.
Proof.
  intros Hs He Ht HD Hneg.
  destruct (raw_grid_cell nu ev t0s Ds i j t0 D Ht HD) as (r & Hr & Hx).
  eexists _, _.
  split; [rewrite (linear_search_run h self nu ev) by assumption;
          reflexivity|].
  split; [apply (linear_search_stored h self nu ev); assumption|].
  split; [apply (linear_search_stored h self nu ev); assumption|].
  assert (Hvz : cell (map (map sanitize)
                  (map (map (fun c => c.1.2)) (raw_grid nu ev t0s Ds))) i j
                = Some (sanitize (eval_transit nu ev t0 D).1.2)).
  { rewrite cell_map, (cell_map2 (fun c => c.1.2) _ i j r _ Hr Hx).
    reflexivity. }
  simpl. repeat split.
  - rewrite (cell_assign_where_negative _ _ _ i j
               (eval_transit nu ev t0 D).1.1 (eval_transit nu ev t0 D).2).
    + rewrite Hneg. reflexivity.
    + apply (cell_map2 (fun c => c.1.1) _ i j r _ Hr Hx).
    + apply (cell_map2 (fun c => c.2) _ i j r _ Hr Hx).
  - apply (cell_map2 (fun c => c.1.1) _ i j r _ Hr Hx).
  - exact Hvz.
  - intros Hfin. rewrite Hvz, F64Facts.sanitize_id by exact Hfin.
    reflexivity.
  - intros Hinf. rewrite Hvz, F64Facts.sanitize_sentinel by exact Hinf.
    reflexivity.
Qed.

(** C2, amended. After [linear_search] every stored variance is finite: it
    is the fitted variance of its cell when that is finite, whatever its
    sign, and the sentinel 1e25 otherwise. *)
Theorem linear_search_variance_finite (h : heap) (self : loc) (nu : Nuance)
    ev (t0s Ds : vec) (positive : bool) :
  h !! self = Some (ONuance nu) -> eval_m nu = Returned ev ->
  exists sd,
    search_data_of (linear_search self t0s Ds positive h).2 self = Some sd /\
    forall i j v, cell (sd_vz sd) i j = Some v ->
      is_finite v = true /\
      exists t0 D, t0s !! i = Some t0 /\ Ds !! j = Some D /\
        v = if is_finite (eval_transit nu ev t0 D).1.2
            then (eval_transit nu ev t0 D).1.2 else sentinel.
Proof.
  intros Hs He. eexists.
  split; [apply (linear_search_stored h self nu ev); assumption|].
  simpl. intros i j v Hv. rewrite cell_map in Hv.
  destruct (cell _ i j) as [x|] eqn:Hx; [|discriminate].
  injection Hv as <-.
  split; [apply F64Facts.sanitize_finite|].
  apply cell_map2_inv in Hx as (r & c & Hr & Hc & ->).
  destruct (raw_grid_cell_inv nu ev t0s Ds i j r c Hr Hc)
    as (t0 & D & Ht & HD & ->).
  exists t0, D. auto.
Qed.

(** C6, amended. [linear_search] does not validate its grids: with an
    empty epoch sequence or an empty duration sequence it raises nothing,
    returns [None] and stores a surface whose three grids have no cell (one
    empty row per epoch), together with [ll0]. *)
Theorem linear_search_empty_grid (h : heap) (self : loc) (nu : Nuance) ev
    (t0s Ds : vec) (positive : bool) :
  h !! self = Some (ONuance nu) -> eval_m nu = Returned ev ->
  t0s = [] \/ Ds = [] ->
  (linear_search self t0s Ds positive h).1 = Returned PyNone /\
  exists sd,
    search_data_of (linear_search self t0s Ds positive h).2 self = Some sd /\
    sd_t0s sd = t0s /\ sd_Ds sd = Ds /\
    grids_shaped sd /\
    concat (sd_ll sd) = [] /\ concat (sd_z sd) = [] /\
    concat (sd_vz sd) = [] /\
    sd_ll0 sd = (ev (zeros_like (nu_time nu))).1.1.
Proof.
  intros Hs He Hempty.
  split; [rewrite (linear_search_run h self nu ev) by assumption;
          reflexivity|].
  eexists.
  split; [apply (linear_search_stored h self nu ev); assumption|].
  split; [reflexivity|]. split; [reflexivity|].
  split; [apply search_surface_shaped|].
  assert (Hnil : forall A : mat, rows_of (length Ds) A ->
            length A = length t0s -> concat A = []).
  { intros A HA HlA. destruct Hempty as [-> | ->].
    - destruct A; [reflexivity|discriminate].
    - clear HlA. induction HA as [|r A Hr HA IH]; [reflexivity|].
      simpl. rewrite IH. destruct r; [reflexivity|discriminate]. }
  destruct (search_surface_shaped nu ev t0s Ds positive
              (ev (zeros_like (nu_time nu))).1.1)
    as (L1 & L2 & L3 & R1 & R2 & R3).
  simpl in *. repeat split; apply Hnil; assumption.
Qed.

(** C7, amended. For every grid, [linear_search] returns [None]; the
    surface is a new [SearchData] object referenced by the session's
    [search_data]: it carries the two grid axes, three grids of one row per
    epoch and one column per duration, and the null log-likelihood
    [ll0]. *)
Theorem linear_search_stores_surface (h : heap) (self : loc) (nu : Nuance)
    ev (t0s Ds : vec) (positive : bool) :
  h !! self = Some (ONuance nu) -> eval_m nu = Returned ev ->
  (linear_search self t0s Ds positive h).1 = Returned PyNone /\
  exists l sd,
    (l ∉ dom h) /\
    (linear_search self t0s Ds positive h).2 !! self
      = Some (ONuance (set_search_data nu (Some l))) /\
    (linear_search self t0s Ds positive h).2 !! l = Some (OSearchData sd) /\
    sd_t0s sd = t0s /\ sd_Ds sd = Ds /\
    grids_shaped sd /\
    sd_ll0 sd = (ev (zeros_like (nu_time nu))).1.1.
Proof.
  intros Hs He.
  rewrite (linear_search_run h self nu ev) by assumption. simpl.
  split; [reflexivity|].
  eexists _, _. split; [apply is_fresh|].
  split; [apply lookup_insert_eq|].
  split.
  { rewrite lookup_insert_ne by (apply not_eq_sym, (fresh_not_in h self _ Hs)).
    apply lookup_insert_eq. }
  split; [reflexivity|]. split; [reflexivity|].
  split; [apply search_surface_shaped|reflexivity].
Qed.

(** C10. The constructor evaluates [error**2] whatever [error] is: left at
    its default [None], construction raises [TypeError] and no session is
    built. *)
Theorem init_default_error_raises (time flux : vec) (kernel : option Kernel)
    (X : option mat) (compute : bool) (mean : float) (h : heap) :
  __init__ time flux ErrNone kernel X compute mean h = (Raised TypeError, h).
Proof. reflexivity. Qed.

End LinearSearch.

(** ** The arg-max scan *)

Section Argmax.
Import F64 F64Facts.

Lemma argmax_from_max (a pre : vec) (mp : float) (best : nat) :
  pre !! best = Some mp ->
  Forall (fun x => np_le x mp = true) pre ->
  exists c, (pre ++ a) !! argmax_from mp best (length pre) a = Some c /\
            Forall (fun x => np_le x c = true) (pre ++ a).
Proof.
  revert pre mp best.
  induction a as [|x a IH]; intros pre mp best Hbest Hmax; simpl.
  - exists mp. rewrite app_nil_r. auto.
  - destruct (is_nan mp) eqn:Hnan.
    + exists mp. split.
      * rewrite lookup_app_l; [exact Hbest|].
        apply lookup_lt_is_Some. eauto.
      * apply Forall_forall. intros y _. unfold np_le.
        rewrite Hnan. reflexivity.
    + assert (Hsnoc : forall l : vec, (pre ++ [x]) ++ l = pre ++ x :: l)
        by (intros l; rewrite <- app_assoc; reflexivity).
      assert (Hlen : length (pre ++ [x]) = S (length pre))
        by (rewrite length_app; simpl; lia).
      destruct (x <=? mp)%float eqn:Hle; simpl.
      * destruct (IH (pre ++ [x]) mp best) as (c & Hc & Hall).
        -- rewrite lookup_app_l; [exact Hbest|].
           apply lookup_lt_is_Some. eauto.
        -- apply Forall_app. split; [exact Hmax|].
           constructor; [|constructor].
           unfold np_le. rewrite Hnan, Hle. reflexivity.
        -- rewrite Hlen, Hsnoc in Hc. rewrite Hsnoc in Hall. eauto.
      * assert (Hmx : np_le mp x = true).
        { unfold np_le. destruct (is_nan x) eqn:Hx; [reflexivity|].
          simpl. apply leb_total; assumption. }
        destruct (IH (pre ++ [x]) x (length pre)) as (c & Hc & Hall).
        -- rewrite lookup_app_r by lia.
           replace (length pre - length pre)%nat with 0%nat by lia.
           reflexivity.
        -- apply Forall_app. split.
           ++ eapply Forall_impl; [exact Hmax|].
              intros y Hy. simpl in Hy.
              exact (np_le_trans y mp x Hy Hmx).
           ++ constructor; [apply np_le_refl|constructor].
        -- rewrite Hlen, Hsnoc in Hc. rewrite Hsnoc in Hall. eauto.
Qed.

(** [np.argmax] returns the position of an entry that no entry exceeds in
    numpy's order; it raises on an empty array only. *)
Lemma argmax_max (a : vec) :
  a <> [] ->
  exists k c, argmax a = Returned k /\ a !! k = Some c /\
              Forall (fun x => np_le x c = true) a.
Proof.
  destruct a as [|x a]; [congruence|]. intros _.
  destruct (argmax_from_max a [x] x 0) as (c & Hc & Hall).
  - reflexivity.
  - constructor; [apply np_le_refl|constructor].
  - exists (argmax_from x 0 1 a), c. auto.
Qed.

End Argmax.

(** Row-major flattening of a rectangular grid. *)
Lemma concat_lookup_rect (c : nat) (A : mat) (k : nat) :
  rows_of c A -> (0 < c)%nat ->
  concat A !! k = cell A (k / c) (k mod c).
Proof.
  intros HA Hc. revert k.
  induction HA as [|r A Hr HA IH]; intros k; simpl.
  - reflexivity.
  - destruct (decide (k < c)%nat) as [Hk|Hk].
    + rewrite lookup_app_l by lia.
      rewrite Nat.div_small, Nat.mod_small by lia. reflexivity.
    + rewrite lookup_app_r by lia. rewrite IH, Hr.
      replace k with (1 * c + (k - c))%nat at 3 4 by lia.
      rewrite Nat.div_add_l by lia.
      replace (1 * c + (k - c))%nat with ((k - c) + 1 * c)%nat by lia.
      rewrite Nat.Div0.mod_add. reflexivity.
Qed.

Lemma concat_nonempty (c : nat) (A : mat) :
  rows_of c A -> A <> [] -> (0 < c)%nat -> concat A <> [].
Proof.
  intros HA Hne Hc. destruct HA as [|r A Hr HA]; [congruence|].
  simpl. destruct r; [simpl in Hr; lia|discriminate].
Qed.

Lemma cell_in_concat (A : mat) (i j : nat) (x : float) :
  cell A i j = Some x -> x ∈ concat A.
Proof.
  intros (r & Hr & Hx)%cell_Some.
  apply list_elem_of_In, in_concat. exists r.
  split; apply list_elem_of_In; eapply list_elem_of_lookup_2; eassumption.
Qed.

(** ** Solving one candidate *)

Section Solve.
Context {E : Externals}.

Lemma last_of_length {A} (l : list A) (n : nat) :
  length l = S n -> last l = l !! n.
Proof. intros Hl. rewrite last_lookup, Hl. reflexivity. Qed.



(** On a session with its evaluator, [depth] and [snr] return: the last
    coefficient of the fit to the template [transit(time, t0, D, 1, P)],
    the square root of the last diagonal entry of its covariance, and their
    quotient. *)
Lemma depth_snr_run (nu : Nuance) ev (t0 D : float) (P : option float) :
  eval_m nu = Returned ev -> shaped nu ev -> template_length nu ->
  exists w v row wl vl,
    (ev (transit (nu_time nu) t0 D 1%float P)).1.2 = w /\
    (ev (transit (nu_time nu) t0 D 1%float P)).2 = v /\
    last w = Some wl /\ last v = Some row /\ last row = Some vl /\
    length w = S (length (nu_X nu)) /\
    length v = S (length (nu_X nu)) /\
    rows_of (S (length (nu_X nu))) v /\
    depth nu t0 D P = Returned (wl, sqrt vl) /\
    snr nu t0 D P = Returned (wl / sqrt vl)%float.
Proof.
  intros He Hsh [_ Htr].
  destruct (Hsh _ (Htr t0 D P)) as (Hw & Hv & Hrows).
  set (m := transit (nu_time nu) t0 D 1%float P) in *.
  destruct (last (ev m).1.2) as [wl|] eqn:Hwl.
  2:{ rewrite (last_of_length _ _ Hw) in Hwl.
      apply lookup_ge_None in Hwl. lia. }
  destruct (last (ev m).2) as [row|] eqn:Hrow.
  2:{ rewrite (last_of_length _ _ Hv) in Hrow.
      apply lookup_ge_None in Hrow. lia. }
  assert (Hlr : length row = S (length (nu_X nu))).
  { rewrite (last_of_length _ _ Hv) in Hrow.
    unfold rows_of in Hrows. rewrite Forall_lookup in Hrows. eauto. }
  destruct (last row) as [vl|] eqn:Hvl.
  2:{ rewrite (last_of_length _ _ Hlr) in Hvl.
      apply lookup_ge_None in Hvl. lia. }
  assert (Hd : depth nu t0 D P = Returned (wl, sqrt vl)).
  { unfold depth, solve, mbind, outcome_bind. rewrite He. simpl.
    fold m. unfold index_last2, index_last, mbind, outcome_bind.
    rewrite Hwl, Hrow, Hvl. reflexivity. }
  exists (ev m).1.2, (ev m).2, row, wl, vl.
  repeat (split; [first [reflexivity | assumption]|]).
  unfold snr, mbind, outcome_bind. rewrite Hd. reflexivity.
Qed.

End Solve.

(** ** Periodic search *)

Section PeriodicSearch.
Context {E : Externals}.
Import F64.

(** One turn of the loop, on a well-formed fold. *)
Lemma search_period_run (nu : Nuance) ev (sd : SearchData) (P : float) :
  eval_m nu = Returned ev -> shaped nu ev -> template_length nu ->
  fold_ok sd P ->
  exists phase P1 P2 k i j ph Dj c s,
    fold_ll sd P = (phase, P1, P2) /\
    argmax (concat P2) = Returned k /\
    unravel_index k (shape P2) = (i, j) /\
    phase !! i = Some ph /\ sd_Ds sd !! j = Some Dj /\
    cell P2 i j = Some c /\
    Forall (fun x => np_le x c = true) (concat P2) /\
    snr nu (ph * P)%float Dj (Some P) = Returned s /\
    search_period nu sd P
    = Returned (s, [(ph * P)%float; Dj; P], (c - np_mean P2)%float).
Proof.
  intros He Hsh Htl Hfold. unfold fold_ok in Hfold.
  destruct (fold_ll sd P) as [[phase P1] P2] eqn:HF.
  destruct Hfold as (Hne & HDs & Hlen & Hrows).
  assert (Hc : (0 < length (sd_Ds sd))%nat).
  { destruct (sd_Ds sd); [congruence|simpl; lia]. }
  destruct (argmax_max (concat P2)) as (k & c & Hk & Hkc & Hmax).
  { eapply concat_nonempty; eassumption. }
  rewrite (concat_lookup_rect _ _ _ Hrows Hc) in Hkc.
  assert (Hshape : shape P2 = (length P2, length (sd_Ds sd))).
  { unfold shape. destruct P2 as [|r P2]; [congruence|].
    inversion Hrows; subst. f_equal. assumption. }
  set (i := (k / length (sd_Ds sd))%nat) in *.
  set (j := (k mod length (sd_Ds sd))%nat) in *.
  pose proof Hkc as Hcell.
  apply cell_Some in Hkc as (r & Hr & Hrj).
  assert (Hrl : length r = length (sd_Ds sd)).
  { unfold rows_of in Hrows. rewrite Forall_lookup in Hrows. eauto. }
  destruct (phase !! i) as [ph|] eqn:Hph.
  2:{ apply lookup_ge_None in Hph. apply lookup_lt_Some in Hr. lia. }
  destruct (sd_Ds sd !! j) as [Dj|] eqn:HDj.
  2:{ apply lookup_ge_None in HDj. apply lookup_lt_Some in Hrj. lia. }
  destruct (depth_snr_run nu ev (ph * P)%float Dj (Some P) He Hsh Htl)
    as (w & v & row & wl & vl & _ & _ & _ & _ & _ & _ & _ & _ & _ & Hsnr).
  exists phase, P1, P2, k, i, j, ph, Dj, c, (wl / sqrt vl)%float.
  repeat (split; [first [reflexivity | assumption]|]).
  split; [rewrite Hshape; reflexivity|].
  repeat (split; [first [reflexivity | assumption]|]).
  unfold search_period. rewrite HF.
  unfold mbind, outcome_bind. rewrite Hk, Hshape.
  unfold unravel_index. simpl. fold i j.
  unfold index. rewrite Hph, HDj, Hsnr.
  unfold index2, index, mbind, outcome_bind. rewrite Hr, Hrj.
  reflexivity.
Qed.

(** The loop writes entry [p] of each array with the result of period
    [p]: started on arrays of zeros, it ends with the results in the order
    of the periods. *)
Lemma period_loop_from (nu : Nuance) (sd : SearchData)
    (l : vec) (rs : list (float * vec * float))
    (k : nat) (d1 : vec) (d2 : mat) (d3 : vec) (z1 : float) (z2 : vec)
    (z3 : float) :
  Forall2 (fun P r => search_period nu sd P = Returned r) l rs ->
  length d1 = k -> length d2 = k -> length d3 = k ->
  period_loop nu sd (imap (fun i x => ((k + i)%nat, x)) l)
    (d1 ++ replicate (length l) z1, d2 ++ replicate (length l) z2,
     d3 ++ replicate (length l) z3)
  = Returned (d1 ++ ((fun r => r.1.1) <$> rs),
              d2 ++ ((fun r => r.1.2) <$> rs),
              d3 ++ ((fun r => r.2) <$> rs)).
Proof.
  intros HF. revert k d1 d2 d3.
  induction HF as [|P r l rs HP HF IH]; intros k d1 d2 d3 H1 H2 H3.
  - reflexivity.
  - rewrite imap_cons. cbn [period_loop length replicate].
    unfold mbind, outcome_bind. rewrite HP. cbn [fst snd].
    rewrite !insert_app_r_alt by lia.
    rewrite Nat.add_0_r, H1, H2, H3, Nat.sub_diag. cbn [insert list_insert].
    rewrite (imap_ext _ (fun i x => ((S k + i)%nat, x))).
    2:{ intros i x _. simpl. f_equal. lia. }
    rewrite !(cons_middle _ d1), !(cons_middle _ d2), !(cons_middle _ d3).
    rewrite !app_assoc.
    rewrite (IH (S k)) by (rewrite length_app; simpl; lia).
    rewrite !fmap_cons, <- !app_assoc. reflexivity.
Qed.

Lemma period_loop_run (nu : Nuance) (sd : SearchData)
    (periods : vec) (rs : list (float * vec * float)) :
  Forall2 (fun P r => search_period nu sd P = Returned r) periods rs ->
  period_loop nu sd (enumerate periods)
    (replicate (length periods) 0%float,
     replicate (length periods) [0%float; 0%float; 0%float],
     replicate (length periods) 0%float)
  = Returned ((fun r => r.1.1) <$> rs, (fun r => r.1.2) <$> rs,
              (fun r => r.2) <$> rs).
Proof.
  intros HF.
  exact (period_loop_from nu sd periods rs 0 [] [] [] _ _ _ HF
           eq_refl eq_refl eq_refl).
Qed.

Lemma search_periods_exist (nu : Nuance) ev (sd : SearchData)
    (periods : vec) :
  eval_m nu = Returned ev -> shaped nu ev -> template_length nu ->
  (forall P, P ∈ periods -> fold_ok sd P) ->
  exists rs,
    Forall2 (fun P r => search_period nu sd P = Returned r) periods rs.
Proof.
  intros He Hsh Htl. induction periods as [|P periods IH]; intros Hfold.
  - exists []. constructor.
  - destruct IH as (rs & Hrs).
    { intros P' HP'. apply Hfold. right. exact HP'. }
    destruct (search_period_run nu ev sd P He Hsh Htl)
      as (? & ? & ? & ? & ? & ? & ? & ? & ? & ? & _ & _ & _ & _ & _ & _
          & _ & _ & Hrun).
    { apply Hfold. left. }
    eexists (_ :: rs). constructor; [exact Hrun|exact Hrs].
Qed.

(** The run of [periodic_search]: the copy is a new object, the results
    are written to it, and a reference to it is returned. *)
Lemma periodic_search_run (h : heap) (self old : loc) (nu : Nuance)
    (sd : SearchData) (periods : vec) (rs : list (float * vec * float)) :
  h !! self = Some (ONuance nu) -> nu_search_data nu = Some old ->
  h !! old = Some (OSearchData sd) ->
  Forall2 (fun P r => search_period nu sd P = Returned r) periods rs ->
  periodic_search self periods h
  = (Returned (PyRef (fresh (dom h))),
     <[fresh (dom h) := OSearchData
         (set_folded sd periods ((fun r => r.1.1) <$> rs)
            ((fun r => r.2) <$> rs) ((fun r => r.1.2) <$> rs))]> h).
Proof.
  intros Hs Hold Hsd HF.
  unfold periodic_search, SearchData_copy, update_sd.
  unfold mbind, M_bind, load_nuance, load_sd, lift, alloc, store, mret,
    M_ret.
  rewrite Hs, Hold, Hsd, lookup_insert_eq.
  rewrite (period_loop_run nu sd periods rs HF).
  rewrite !lookup_insert_eq, !insert_insert_eq. reflexivity.
Qed.

(** Whatever it does, [periodic_search] leaves every object of the heap
    it started from as it was. *)
Lemma periodic_search_frame (h : heap) (self : loc) (periods : vec)
    (k : loc) (o : obj) :
  h !! k = Some o -> (periodic_search self periods h).2 !! k = Some o.
Proof.
  intros Hk.
  assert (Hfresh : fresh (dom h) <> k) by (eapply fresh_not_in; eauto).
  unfold periodic_search, SearchData_copy, update_sd.
  unfold mbind, M_bind, load_nuance, load_sd, lift, alloc, store, mret,
    M_ret.
  destruct (h !! self) as [[nu|sd0]|]; try exact Hk.
  destruct (nu_search_data nu) as [old|]; [|exact Hk].
  destruct (h !! old) as [[nu0|sd]|]; try exact Hk.
  rewrite lookup_insert_eq.
  destruct (period_loop _ _ _ _) as [st|e].
  - rewrite !lookup_insert_eq, !insert_insert_eq. simpl.
    rewrite lookup_insert_ne by exact Hfresh. exact Hk.
  - simpl. rewrite lookup_insert_ne by exact Hfresh. exact Hk.
Qed.

(** [periodic_search] on a session that has its evaluator and a stored
    surface whose folds are well formed. *)
Lemma periodic_search_result (h : heap) (self old : loc) (nu : Nuance) ev
    (sd : SearchData) (periods : vec) :
  h !! self = Some (ONuance nu) -> nu_search_data nu = Some old ->
  h !! old = Some (OSearchData sd) ->
  eval_m nu = Returned ev -> shaped nu ev -> template_length nu ->
  (forall P, P ∈ periods -> fold_ok sd P) ->
  exists rs,
    Forall2 (fun P r => search_period nu sd P = Returned r) periods rs /\
    periodic_search self periods h
    = (Returned (PyRef (fresh (dom h))),
       <[fresh (dom h) := OSearchData
           (set_folded sd periods ((fun r => r.1.1) <$> rs)
              ((fun r => r.2) <$> rs) ((fun r => r.1.2) <$> rs))]> h).
Proof.
  intros Hs Hold Hsd He Hsh Htl Hfold.
  destruct (search_periods_exist nu ev sd periods He Hsh Htl Hfold)
    as (rs & Hrs).
  exists rs. split; [exact Hrs|].
  apply (periodic_search_run h self old nu sd periods rs); assumption.
Qed.

(** C3. For the period [P] at position [p], [periodic_search] takes the
    cell [(i, j)] that [np.argmax] finds on the maximised aggregate [P2] of
    [fold_ll(P)]: no entry of [P2] exceeds [P2[i, j]] (in numpy's order,
    and by [<=] when [P2] has no NaN). It records the parameters
    [(phase[i] * P, Ds[j], P)] and [max_ll = P2[i, j] - mean(P2)] at
    position [p]. *)
Theorem periodic_search_best_cell (h : heap) (self old : loc) (nu : Nuance)
    ev (sd : SearchData) (periods : vec) (p : nat) (P : float) :
  h !! self = Some (ONuance nu) -> nu_search_data nu = Some old ->
  h !! old = Some (OSearchData sd) ->
  eval_m nu = Returned ev -> shaped nu ev -> template_length nu ->
  (forall P', P' ∈ periods -> fold_ok sd P') ->
  periods !! p = Some P ->
  exists sd' phase P1 P2 k i j ph Dj c params max_ll,
    deref (periodic_search self periods h).2
          (periodic_search self periods h).1 = Some (OSearchData sd') /\
    fold_ll sd P = (phase, P1, P2) /\
    argmax (concat P2) = Returned k /\
    unravel_index k (shape P2) = (i, j) /\
    cell P2 i j = Some c /\
    (forall a b x, cell P2 a b = Some x -> np_le x c = true) /\
    ((forall x, x ∈ concat P2 -> is_nan x = false) ->
     forall a b x, cell P2 a b = Some x -> (x <=? c)%float = true) /\
    phase !! i = Some ph /\ sd_Ds sd !! j = Some Dj /\
    sd_Q_params sd' = Some params /\
    params !! p = Some [(ph * P)%float; Dj; P] /\
    sd_Q_ll sd' = Some max_ll /\
    max_ll !! p = Some (c - np_mean P2)%float.
Proof.
  intros Hs Hold Hsd He Hsh Htl Hfold Hp.
  destruct (periodic_search_result h self old nu ev sd periods
              Hs Hold Hsd He Hsh Htl Hfold) as (rs & Hrs & Hrun).
  destruct (Forall2_lookup_l _ _ _ _ _ Hrs Hp) as (r & Hr & HrP).
  destruct (search_period_run nu ev sd P He Hsh Htl)
    as (phase & P1 & P2 & k & i & j & ph & Dj & c & s
        & HF & Hk & Hij & Hph & HDj & Hc & Hmax & _ & Hsp).
  { apply Hfold. eapply list_elem_of_lookup_2. exact Hp. }
  rewrite Hsp in HrP. injection HrP as <-.
  assert (Hnp : forall a b x, cell P2 a b = Some x -> np_le x c = true).
  { intros a b x Hx. rewrite Forall_forall in Hmax.
    apply Hmax. eapply cell_in_concat. exact Hx. }
  eexists _, phase, P1, P2, k, i, j, ph, Dj, c, _, _.
  rewrite Hrun. simpl. rewrite lookup_insert_eq.
  split; [reflexivity|].
  repeat (split; [first [reflexivity | assumption]|]).
  split.
  { intros Hnan a b x Hx. apply F64Facts.np_le_leb; [|eauto].
    apply Hnan. eapply cell_in_concat. exact Hc. }
  repeat (split; [first [reflexivity | assumption]|]).
  split; [rewrite list_lookup_fmap, Hr; reflexivity|].
  split; [reflexivity|].
  rewrite list_lookup_fmap, Hr. reflexivity.
Qed.

(** C4. [periodic_search] returns one record per input period, at the
    position of that period: the stored [periods] are the input, the
    arrays [Q_snr], [Q_ll] and [Q_params] have its length, and entry [p]
    belongs to [periods[p]]. The SNR of a record is computed afresh by
    [snr(Ti, Dj, P)]: the last coefficient of the fit to the periodic
    template [transit(time, Ti, Dj, 1, P=P)] over the square root of its
    variance. *)
Theorem periodic_search_records (h : heap) (self old : loc) (nu : Nuance)
    ev (sd : SearchData) (periods : vec) :
  h !! self = Some (ONuance nu) -> nu_search_data nu = Some old ->
  h !! old = Some (OSearchData sd) ->
  eval_m nu = Returned ev -> shaped nu ev -> template_length nu ->
  (forall P, P ∈ periods -> fold_ok sd P) ->
  exists sd' snrs max_ll params,
    deref (periodic_search self periods h).2
          (periodic_search self periods h).1 = Some (OSearchData sd') /\
    sd_periods sd' = Some periods /\
    sd_Q_snr sd' = Some snrs /\ sd_Q_ll sd' = Some max_ll /\
    sd_Q_params sd' = Some params /\
    length snrs = length periods /\ length max_ll = length periods /\
    length params = length periods /\
    forall p P, periods !! p = Some P ->
      exists Ti Dj w v row wl vl,
        params !! p = Some [Ti; Dj; P] /\
        (ev (transit (nu_time nu) Ti Dj 1%float (Some P))).1.2 = w /\
        (ev (transit (nu_time nu) Ti Dj 1%float (Some P))).2 = v /\
        last w = Some wl /\ last v = Some row /\ last row = Some vl /\
        snr nu Ti Dj (Some P) = Returned (wl / sqrt vl)%float /\
        snrs !! p = Some (wl / sqrt vl)%float.
Proof.
  intros Hs Hold Hsd He Hsh Htl Hfold.
  destruct (periodic_search_result h self old nu ev sd periods
              Hs Hold Hsd He Hsh Htl Hfold) as (rs & Hrs & Hrun).
  pose proof (Forall2_length _ _ _ Hrs) as Hlen.
  eexists _, _, _, _. rewrite Hrun. simpl. rewrite lookup_insert_eq.
  split; [reflexivity|].
  do 4 (split; [reflexivity|]).
  rewrite !length_fmap.
  do 3 (split; [congruence|]).
  intros p P Hp.
  destruct (Forall2_lookup_l _ _ _ _ _ Hrs Hp) as (r & Hr & HrP).
  destruct (search_period_run nu ev sd P He Hsh Htl)
    as (phase & P1 & P2 & k & i & j & ph & Dj & c & s
        & HF & Hk & Hij & Hph & HDj & Hc & Hmax & Hsnr & Hsp).
  { apply Hfold. eapply list_elem_of_lookup_2. exact Hp. }
  rewrite Hsp in HrP. injection HrP as <-.
  destruct (depth_snr_run nu ev (ph * P)%float Dj (Some P) He Hsh Htl)
    as (w & v & row & wl & vl & Hw & Hv & Hwl & Hrow & Hvl & _ & _ & _
        & _ & Hsnr').
  rewrite Hsnr' in Hsnr. injection Hsnr as <-.
  exists (ph * P)%float, Dj, w, v, row, wl, vl.
  split; [rewrite list_lookup_fmap, Hr; reflexivity|].
  repeat (split; [assumption|]).
  rewrite list_lookup_fmap, Hr. reflexivity.
Qed.

(** C8. [periodic_search] reads the stored surface and writes to a copy:
    it returns a reference to a new object that carries the surface and
    the folded results, and every object of the heap it started from, the
    session and its [search_data] among them, is left as it was. *)
Theorem periodic_search_read_only (h : heap) (self old : loc) (nu : Nuance)
    ev (sd : SearchData) (periods : vec) :
  h !! self = Some (ONuance nu) -> nu_search_data nu = Some old ->
  h !! old = Some (OSearchData sd) ->
  eval_m nu = Returned ev -> shaped nu ev -> template_length nu ->
  (forall P, P ∈ periods -> fold_ok sd P) ->
  exists l' sd',
    (periodic_search self periods h).1 = Returned (PyRef l') /\
    (l' ∉ dom h) /\
    (periodic_search self periods h).2 !! l' = Some (OSearchData sd') /\
    (forall k o, h !! k = Some o ->
       (periodic_search self periods h).2 !! k = Some o) /\
    search_data_of (periodic_search self periods h).2 self = Some sd /\
    (sd_t0s sd' = sd_t0s sd /\ sd_Ds sd' = sd_Ds sd /\
     sd_ll sd' = sd_ll sd /\ sd_z sd' = sd_z sd /\ sd_vz sd' = sd_vz sd /\
     sd_ll0 sd' = sd_ll0 sd) /\
    sd_periods sd' = Some periods /\
    is_Some (sd_Q_snr sd') /\ is_Some (sd_Q_ll sd') /\
    is_Some (sd_Q_params sd').
Proof.
  intros Hs Hold Hsd He Hsh Htl Hfold.
  destruct (periodic_search_result h self old nu ev sd periods
              Hs Hold Hsd He Hsh Htl Hfold) as (rs & Hrs & Hrun).
  pose proof (periodic_search_frame h self periods) as Hframe.
  eexists _, _.
  split; [rewrite Hrun; reflexivity|].
  split; [apply is_fresh|].
  split; [rewrite Hrun; simpl; apply lookup_insert_eq|].
  split; [exact Hframe|].
  split.
  { unfold search_data_of.
    rewrite (Hframe self _ Hs), Hold, (Hframe old _ Hsd). reflexivity. }
  simpl. repeat split; eauto.
Qed.

End PeriodicSearch.

(** ** Masking *)

Section Masking.
Context {E : Externals}.

Lemma bind_run {A B} (m : M A) (f : A -> M B) (h h' : heap) (a : A) :
  m h = (Returned a, h') -> (m ≫= f) h = f a h'.
Proof. intros Hm. unfold mbind, M_bind. rewrite Hm. reflexivity. Qed.

Ltac run H := rewrite (bind_run _ _ _ _ _ H); cbv beta.

Lemma load_nuance_run (h : heap) (l : loc) (nu : Nuance) :
  h !! l = Some (ONuance nu) -> load_nuance l h = (Returned nu, h).
Proof. intros Hl. unfold load_nuance. rewrite Hl. reflexivity. Qed.

Lemma load_sd_run (h : heap) (l : loc) (sd : SearchData) :
  h !! l = Some (OSearchData sd) -> load_sd l h = (Returned sd, h).
Proof. intros Hl. unfold load_sd. rewrite Hl. reflexivity. Qed.

Lemma copy_run (h : heap) (l : loc) (sd : SearchData) :
  h !! l = Some (OSearchData sd) ->
  SearchData_copy l h
  = (Returned (fresh (dom h)), <[fresh (dom h) := OSearchData sd]> h).
Proof.
  intros Hl. unfold SearchData_copy.
  rewrite (bind_run _ _ _ _ _ (load_sd_run h l sd Hl)). reflexivity.
Qed.

Lemma update_sd_run (h : heap) (l : loc) (f : SearchData -> outcome SearchData)
    (sd sd' : SearchData) :
  f sd = Returned sd' ->
  update_sd l f (<[l := OSearchData sd]> h)
  = (Returned tt, <[l := OSearchData sd']> h).
Proof.
  intros Hf. unfold update_sd.
  rewrite (bind_run _ _ _ _ _
             (load_sd_run _ l sd (lookup_insert_eq h l (OSearchData sd)))).
  unfold mbind, M_bind, lift, store. rewrite Hf, insert_insert_eq.
  reflexivity.
Qed.

(** One attribute assignment on the object the heap was last written at;
    [tac] shows that the new contents are computed without an exception. *)
Ltac upd tac :=
  lazymatch goal with
  | |- (update_sd ?l ?f ≫= _) (<[?l := OSearchData ?sd]> ?h) = _ =>
      let H := fresh "Hupd" in
      eassert (H : f sd = Returned _);
      [ cbv beta; tac
      | rewrite (bind_run _ _ _ _ _ (update_sd_run h l f sd _ H));
        cbv beta; clear H ]
  end.

Lemma bool_index_run {A} (a : list A) (msk : list bool) :
  length a = length msk -> bool_index a msk = Returned (select a msk).
Proof. intros Hl. unfold bool_index. rewrite decide_True; auto. Qed.

Lemma bool_index_cols_run (c : nat) (a : mat) (msk : list bool) :
  rows_of c a -> c = length msk ->
  bool_index_cols a msk = Returned (map (fun r => select r msk) a).
Proof.
  intros Ha ->. induction Ha as [|r a Hr Ha IH]; simpl; [reflexivity|].
  unfold mbind, outcome_bind. rewrite (bool_index_run r msk Hr), IH.
  reflexivity.
Qed.

Lemma init_run (time flux : vec) (error : pyerror) (kernel : option Kernel)
    (X : mat) (mean : float) (d : diag) (h : heap) :
  squared error = Returned d ->
  __init__ time flux error kernel (Some X) true mean h
  = (Returned (fresh (dom h)),
     <[fresh (dom h) := ONuance
         (_compute_L
            (mkNuance time flux error kernel mean X
               (GaussianProcess
                  (match kernel with
                   | None => Constant 0%float
                   | Some k => k
                   end) time d mean) None None))]> h).
Proof.
  intros Hd. unfold __init__, mbind, M_bind, lift. rewrite Hd. reflexivity.
Qed.

(** The entries [a[mask]] keeps are those at the positions where the mask
    holds. *)
Lemma select_elem {A} (a : list A) (msk : list bool) (x : A) :
  x ∈ select a msk <->
  exists i, a !! i = Some x /\ msk !! i = Some true.
Proof.
  unfold select. rewrite list_elem_of_fmap. split.
  - intros ([y b] & -> & Hin). apply list_elem_of_filter in Hin as [Hb Hin].
    simpl in Hb. subst b.
    apply list_elem_of_lookup_1 in Hin as (i & Hi).
    apply lookup_zip_with_Some in Hi as (y' & b' & Heq & Ha & Hm).
    injection Heq as <- <-. exists i. auto.
  - intros (i & Ha & Hm). exists (x, true). split; [reflexivity|].
    apply list_elem_of_filter. split; [reflexivity|].
    apply (list_elem_of_lookup_2 _ i).
    apply lookup_zip_with_Some. exists x, true. auto.
Qed.

Lemma length_outside (D : float) (ph : vec) :
  length (outside D ph) = length ph.
Proof. unfold outside. apply length_map. Qed.

Lemma outside_lookup (D : float) (ph : vec) (i : nat) :
  outside D ph !! i = Some true <->
  exists p, ph !! i = Some p /\ (2 * D <? abs p)%float = true.
Proof.
  unfold outside. rewrite map_fmap, list_lookup_fmap.
  destruct (ph !! i) as [p|]; simpl; split.
  - intros [= Hp]. eauto.
  - intros (p' & [= <-] & Hp). rewrite Hp. reflexivity.
  - discriminate.
  - intros (p' & Hp & _). discriminate.
Qed.

(** The run of [mask] on a session with a stored surface. *)
Lemma mask_run (h : heap) (self old : loc) (nu : Nuance) (sd : SearchData)
    (t0 D P : float) :
  h !! self = Some (ONuance nu) -> nu_search_data nu = Some old ->
  h !! old = Some (OSearchData sd) ->
  phase_length -> grids_shaped sd -> session_shaped nu ->
  exists (sd' : SearchData) (nu' : Nuance),
    let m1 := outside D (phase (sd_t0s sd) t0 P) in
    let m2 := outside D (phase (nu_time nu) t0 P) in
    let l1 := fresh (dom h) in
    let l2 := fresh (dom (<[l1 := OSearchData sd']> h)) in
    mask self t0 D P h
    = (Returned (PyRef l2),
       <[l2 := ONuance nu']> (<[l1 := OSearchData sd']> h)) /\
    sd' = mkSearchData (select (sd_t0s sd) m1) (sd_Ds sd)
            (select (sd_ll sd) m1) (select (sd_z sd) m1)
            (select (sd_vz sd) m1) (sd_ll0 sd) None (sd_Q_snr sd)
            (sd_Q_ll sd) (sd_Q_params sd) None None /\
    nu_time nu' = select (nu_time nu) m2 /\
    nu_flux nu' = select (nu_flux nu) m2 /\
    nu_X nu' = map (fun r => select r m2) (nu_X nu) /\
    nu_error nu' = match nu_error nu with
                   | ErrArray e => ErrArray (select e m2)
                   | e => e
                   end /\
    nu_kernel nu' = nu_kernel nu /\
    nu_search_data nu' = Some l1.
Proof.
  intros Hs Hold Hsd Hph (Lll & Lz & Lvz & _) (Lflux & LX & Lerr).
  set (m1 := outside D (phase (sd_t0s sd) t0 P)).
  set (m2 := outside D (phase (nu_time nu) t0 P)).
  assert (Hm1 : length m1 = length (sd_t0s sd))
    by (unfold m1; rewrite length_outside; apply Hph).
  assert (Hm2 : length m2 = length (nu_time nu))
    by (unfold m2; rewrite length_outside; apply Hph).
  assert (Herr : exists d e',
             squared e' = Returned d /\
             e' = match nu_error nu with
                  | ErrArray e => ErrArray (select e m2)
                  | e => e
                  end /\
             match nu_error nu with
             | ErrArray e => e'' ← bool_index e m2; mret (ErrArray e'')
             | e => Returned e
             end = Returned e').
  { destruct (nu_error nu) as [|x|e]; [contradiction| |].
    - exists (DiagScalar (pow2 x)), (ErrScalar x).
      split; [reflexivity|]. split; reflexivity.
    - exists (DiagArray (map (fun x => (x * x)%float) (select e m2))),
        (ErrArray (select e m2)).
      split; [reflexivity|]. split; [reflexivity|].
      rewrite bool_index_run by congruence. reflexivity. }
  destruct Herr as (d & e' & Hsq & He' & Herr).
  eexists _, _. cbv zeta. split.
  - unfold mask.
    run (load_nuance_run h self nu Hs). rewrite Hold.
    rewrite (bind_run (lift (Returned old)) _ h h old eq_refl). cbv beta.
    run (copy_run h old sd Hsd).
    run (load_sd_run _ _ sd (lookup_insert_eq h (fresh (dom h))
                               (OSearchData sd))).
    fold m1 m2.
    do 3 (upd ltac:(reflexivity)).
    do 4 (upd ltac:(cbn [sd_t0s sd_ll sd_z sd_vz set_llv set_llc
                          set_periods set_t0s set_ll set_z set_vz];
                    rewrite bool_index_run by congruence; reflexivity)).
    rewrite Herr.
    erewrite (bind_run (lift (Returned e')) _ _ _ e' eq_refl). cbv beta.
    rewrite (bool_index_run (nu_time nu) m2) by congruence.
    erewrite (bind_run (lift (Returned _)) _ _ _ _ eq_refl). cbv beta.
    rewrite (bool_index_run (nu_flux nu) m2) by congruence.
    erewrite (bind_run (lift (Returned _)) _ _ _ _ eq_refl). cbv beta.
    rewrite (bool_index_cols_run _ (nu_X nu) m2 LX) by congruence.
    erewrite (bind_run (lift (Returned _)) _ _ _ _ eq_refl). cbv beta.
    erewrite (bind_run _ _ _ _ _
                (init_run (select (nu_time nu) m2) (select (nu_flux nu) m2)
                   e' (nu_kernel nu) (map (fun r => select r m2) (nu_X nu))
                   0%float d _ Hsq)).
    cbv beta.
    erewrite (bind_run _ _ _ _ _ (load_nuance_run _ _ _ (lookup_insert_eq _ _ _))).
    cbv beta. unfold mbind, M_bind, store, mret, M_ret.
    rewrite insert_insert_eq. reflexivity.
  - cbn. rewrite He'. repeat split.
Qed.

(** C9. [mask(t0, D, P)] returns a new session. Its time series and
    design matrix keep the points, and its search surface the grid epochs
    (with their rows of [ll], [z] and [vz]), whose phase [ph] satisfies
    [|ph| > 2 D], in their order, and no other. The session is a new
    object with a new [search_data]; every object of the heap [mask]
    started from, the original session and its surface among them, is left
    as it was. *)
Theorem mask_new_session (h : heap) (self old : loc) (nu : Nuance)
    (sd : SearchData) (t0 D P : float) :
  h !! self = Some (ONuance nu) -> nu_search_data nu = Some old ->
  h !! old = Some (OSearchData sd) ->
  phase_length -> grids_shaped sd -> session_shaped nu ->
  exists l' l1 nu' sd',
    (mask self t0 D P h).1 = Returned (PyRef l') /\
    (l' ∉ dom h) /\ (l1 ∉ dom h) /\
    (mask self t0 D P h).2 !! l' = Some (ONuance nu') /\
    nu_search_data nu' = Some l1 /\
    (mask self t0 D P h).2 !! l1 = Some (OSearchData sd') /\
    nu_time nu' = select (nu_time nu) (outside D (phase (nu_time nu) t0 P)) /\
    nu_flux nu' = select (nu_flux nu) (outside D (phase (nu_time nu) t0 P)) /\
    nu_X nu' = map (fun r => select r (outside D (phase (nu_time nu) t0 P)))
                 (nu_X nu) /\
    sd_t0s sd' = select (sd_t0s sd) (outside D (phase (sd_t0s sd) t0 P)) /\
    sd_ll sd' = select (sd_ll sd) (outside D (phase (sd_t0s sd) t0 P)) /\
    sd_z sd' = select (sd_z sd) (outside D (phase (sd_t0s sd) t0 P)) /\
    sd_vz sd' = select (sd_vz sd) (outside D (phase (sd_t0s sd) t0 P)) /\
    sd_Ds sd' = sd_Ds sd /\ sd_ll0 sd' = sd_ll0 sd /\
    (forall t, t ∈ nu_time nu' <->
       exists i ph, nu_time nu !! i = Some t /\
                    phase (nu_time nu) t0 P !! i = Some ph /\
                    (2 * D <? abs ph)%float = true) /\
    (forall t, t ∈ sd_t0s sd' <->
       exists i ph, sd_t0s sd !! i = Some t /\
                    phase (sd_t0s sd) t0 P !! i = Some ph /\
                    (2 * D <? abs ph)%float = true) /\
    (forall k o, h !! k = Some o ->
       (mask self t0 D P h).2 !! k = Some o) /\
    search_data_of (mask self t0 D P h).2 self = Some sd.
Proof.
  intros Hs Hold Hsd Hph Hgrid Hsess.
  destruct (mask_run h self old nu sd t0 D P Hs Hold Hsd Hph Hgrid Hsess)
    as (sd' & nu' & Hrun & Hsd' & Ht & Hf & HX & _ & _ & Hl1).
  set (l1 := fresh (dom h)) in *.
  set (l2 := fresh (dom (<[l1 := OSearchData sd']> h))) in *.
  assert (Hl2 : l2 ∉ dom (<[l1 := OSearchData sd']> h)) by apply is_fresh.
  assert (Hl12 : l2 <> l1).
  { intros Heq. apply Hl2. rewrite Heq, dom_insert_L.
    apply elem_of_union_l, elem_of_singleton. reflexivity. }
  assert (Hframe : forall k o, h !! k = Some o ->
            (mask self t0 D P h).2 !! k = Some o).
  { intros k o Hk. rewrite Hrun. simpl.
    assert (l1 <> k) by (eapply fresh_not_in; eauto).
    assert (l2 <> k).
    { eapply (fresh_not_in (<[l1 := OSearchData sd']> h)).
      rewrite lookup_insert_ne by assumption. exact Hk. }
    rewrite !lookup_insert_ne by assumption. exact Hk. }
  assert (Hsel : forall (a : vec) t,
            t ∈ select a (outside D (phase a t0 P)) <->
            exists i ph, a !! i = Some t /\ phase a t0 P !! i = Some ph /\
                         (2 * D <? abs ph)%float = true).
  { intros a t. rewrite select_elem. split.
    - intros (i & Ha & (ph & Hp & Hlt)%outside_lookup). eauto.
    - intros (i & ph & Ha & Hp & Hlt). exists i. split; [exact Ha|].
      apply outside_lookup. eauto. }
  exists l2, l1, nu', sd'.
  split; [rewrite Hrun; reflexivity|].
  split; [intros Hin; apply Hl2; rewrite dom_insert_L;
          apply elem_of_union_r, Hin|].
  split; [apply is_fresh|].
  split; [rewrite Hrun; simpl; apply lookup_insert_eq|].
  split; [exact Hl1|].
  split.
  { rewrite Hrun. simpl. rewrite lookup_insert_ne by exact Hl12.
    apply lookup_insert_eq. }
  do 3 (split; [assumption|]).
  rewrite Hsd'. cbn [sd_t0s sd_ll sd_z sd_vz sd_Ds sd_ll0].
  do 6 (split; [reflexivity|]).
  split; [rewrite Ht; apply Hsel|].
  split; [apply Hsel|].
  split; [exact Hframe|].
  unfold search_data_of.
  rewrite (Hframe self _ Hs), Hold, (Hframe old _ Hsd). reflexivity.
Qed.

End Masking.

(** ** Direct evaluation against the stored surface *)

Section RoundTrip.
Context {E : Externals}.





End RoundTrip.

(** ** The example sessions *)

Section ToyFacts.
Import Toy Examples.

(** The example heaps are what the constructor builds. *)
Example init_a :
  __init__ [0; 1; 2; 3]%float [1; 1; 0.5; 1]%float (ErrScalar 1%float)
    None None true 0%float ∅
  = (Returned 1%positive, h_a).
Proof. reflexivity. Qed.

Example init_b :
  __init__ [0; 1; 2]%float [1; 1; 1]%float (ErrScalar 1%float)
    None (Some [[1.3; 1.3; 1.3]%float]) true 0%float ∅
  = (Returned 1%positive, h_b).
Proof. reflexivity. Qed.

Lemma toy_template_length (nu : Nuance) : template_length nu.
Proof.
  split.
  - intros t0 D. cbn. unfold box. apply length_map.
  - intros t0 D [P|]; cbn.
    + unfold centred. rewrite !length_map. reflexivity.
    + unfold box. apply length_map.
Qed.

Lemma toy_phase_length : phase_length.
Proof. intros a t0 P. cbn. unfold centred. apply length_map. Qed.

Lemma toy_transit_single (nu : Nuance) (t0 D : float) :
  transit (nu_time nu) t0 D 1%float None = single_transit (nu_time nu) t0 D.
Proof. reflexivity. Qed.

Lemma toy_shaped_a : shaped nu_a ev_a.
Proof.
  intros m Hm.
  destruct m as [|a [|b [|c [|d [|]]]]]; try discriminate.
  unfold ev_a.
  cbn -[PrimFloat.add PrimFloat.mul PrimFloat.div PrimFloat.sub
        PrimFloat.sqrt PrimFloat.opp is_zero].
  repeat match goal with
         | |- context [if ?c then _ else _] => destruct c
         end;
    repeat split; repeat constructor.
Qed.

Lemma toy_shaped_s : shaped nu_s ev_a.
Proof. exact toy_shaped_a. Qed.

Lemma toy_fold_ok_s (P : float) : fold_ok sd_s P.
Proof.
  unfold fold_ok. cbn [fold_ll externals].
  split; [vm_compute; discriminate|].
  split; [vm_compute; discriminate|].
  split; [rewrite length_map; vm_compute; reflexivity|].
  vm_compute. repeat constructor.
Qed.

Lemma toy_session_shaped_s : session_shaped nu_s.
Proof. vm_compute. repeat split. repeat constructor. Qed.

End ToyFacts.

(** ** The theorems at the example sessions *)

Section Instances.
Import Toy Examples.

(** The cell [(t0, D) = (2, 0.5)] of the first session has a negative
    fitted depth. *)
Lemma linear_search_sign_policy_witness :
  exists sd,
    search_data_of (linear_search 1%positive t0s_a Ds_a true h_a).2
      1%positive = Some sd /\
    cell (sd_ll sd) 1 0 = Some (sd_ll0 sd) /\
    cell (sd_z sd) 1 0 = Some (eval_transit nu_a ev_a 2 0.5).1.1 /\
    cell (sd_vz sd) 1 0 = Some (eval_transit nu_a ev_a 2 0.5).1.2.
Proof.
  destruct (linear_search_sign_policy h_a 1%positive nu_a ev_a t0s_a Ds_a
              1 0 2%float 0.5%float)
    as (sd & sd' & _ & Hsd & _ & Hll & Hz & _ & Hvz & _);
    [reflexivity..|].
  exists sd. repeat split; try assumption.
  apply Hvz. reflexivity.
Defined.

(** With the template of the cell as the baseline regressor, the normal
    equations of the cell are exactly singular: the fitted depth is
    negative, the fitted variance is not finite, and the surface holds the
    sentinel in its place. *)
Lemma negative_depth_variance_replaced :
  exists nu ev sd z v,
    h_c !! 1%positive = Some (ONuance nu) /\
    nu_X nu = [single_transit (nu_time nu) 2.25 4] /\
    eval_m nu = Returned ev /\
    (eval_transit nu ev 2.25 4).1.1 = z /\ (z <? 0)%float = true /\
    (eval_transit nu ev 2.25 4).1.2 = v /\ is_finite v = false /\
    search_data_of
      (linear_search 1%positive [2.25%float] [4%float] true h_c).2
      1%positive = Some sd /\
    cell (sd_ll sd) 0 0 = Some (sd_ll0 sd) /\
    cell (sd_z sd) 0 0 = Some z /\
    cell (sd_vz sd) 0 0 = Some sentinel /\
    (sentinel =? v)%float = false.
Proof.
  eexists _, _, _, _, _.
  split; [reflexivity|].
  split; [reflexivity|].
  split; [reflexivity|].
  split; [reflexivity|].
  split; [reflexivity|].
  split; [reflexivity|].
  split; [reflexivity|].
  split; [reflexivity|].
  split; [reflexivity|].
  split; [reflexivity|].
  split; reflexivity.
Defined.

Lemma linear_search_variance_finite_witness :
  exists sd,
    search_data_of (linear_search 1%positive t0s_a Ds_a true h_a).2
      1%positive = Some sd /\
    forall i j v, cell (sd_vz sd) i j = Some v -> is_finite v = true.
Proof.
  destruct (linear_search_variance_finite h_a 1%positive nu_a ev_a t0s_a
              Ds_a true)
    as (sd & Hsd & Hfin); [reflexivity..|].
  exists sd. split; [exact Hsd|].
  intros i j v Hv. exact (proj1 (Hfin i j v Hv)).
Defined.

(** A template that covers every sample by far ([D = 1e20]) is collinear
    with the constant baseline; rounding leaves a negative, finite variance,
    and the sanitised grid keeps it. *)
Lemma negative_variance_is_stored :
  exists sd v,
    search_data_of
      (linear_search 1%positive [1%float] [1e20%float] true h_b).2
      1%positive
    = Some sd /\
    cell (sd_vz sd) 0 0 = Some v /\
    is_finite v = true /\ (0 <? v)%float = false /\
    (variances_finite_positive sd -> False).
Proof.
  eexists _, _.
  split; [reflexivity|].
  split; [reflexivity|].
  split; [reflexivity|].
  split; [reflexivity|].
  intros Hall. destruct (Hall 0%nat 0%nat _ eq_refl) as [_ Hpos].
  vm_compute in Hpos. discriminate.
Defined.

Lemma linear_search_empty_grid_witness :
  (linear_search 1%positive [] Ds_a true h_a).1 = Returned PyNone /\
  exists sd,
    search_data_of (linear_search 1%positive [] Ds_a true h_a).2 1%positive
    = Some sd /\
    concat (sd_ll sd) = [] /\ concat (sd_z sd) = [] /\
    concat (sd_vz sd) = [].
Proof.
  destruct (linear_search_empty_grid h_a 1%positive nu_a ev_a [] Ds_a true)
    as (Hret & sd & Hsd & _ & _ & _ & Hll & Hz & Hvz & _);
    [reflexivity | reflexivity | left; reflexivity|].
  split; [exact Hret|]. exists sd. auto.
Defined.

(** With no epoch, [linear_search] raises nothing and stores a surface
    without a cell. *)
Lemma empty_epochs_run_silently :
  (linear_search 1%positive [] Ds_a true h_a).1 = Returned PyNone /\
  exists sd,
    search_data_of (linear_search 1%positive [] Ds_a true h_a).2 1%positive
    = Some sd /\
    sd_ll sd = [] /\ sd_z sd = [] /\ sd_vz sd = [].
Proof.
  split; [reflexivity|].
  eexists. split; [reflexivity|].
  repeat split.
Defined.

Lemma linear_search_stores_surface_witness :
  (linear_search 1%positive t0s_a Ds_a true h_a).1 = Returned PyNone /\
  exists sd,
    search_data_of (linear_search 1%positive t0s_a Ds_a true h_a).2
      1%positive = Some sd /\
    grids_shaped sd.
Proof.
  destruct (linear_search_stores_surface h_a 1%positive nu_a ev_a t0s_a
              Ds_a true)
    as (Hret & l & sd & _ & Hself & Hl & _ & _ & Hshape & _);
    [reflexivity..|].
  split; [exact Hret|]. exists sd. split; [|exact Hshape].
  unfold search_data_of. rewrite Hself. simpl. rewrite Hl. reflexivity.
Defined.

(** What [linear_search] returns is [None], not a reference to the
    surface. *)
Lemma linear_search_returns_none :
  (linear_search 1%positive t0s_a Ds_a true h_a).1 = Returned PyNone /\
  deref (linear_search 1%positive t0s_a Ds_a true h_a).2
        (linear_search 1%positive t0s_a Ds_a true h_a).1 = None.
Proof. split; reflexivity. Defined.

Lemma periodic_search_best_cell_witness :
  exists sd' params max_ll,
    deref (periodic_search 1%positive periods_a h_s).2
          (periodic_search 1%positive periods_a h_s).1
    = Some (OSearchData sd') /\
    sd_Q_params sd' = Some params /\ is_Some (params !! 0%nat) /\
    sd_Q_ll sd' = Some max_ll /\ is_Some (max_ll !! 0%nat).
Proof.
  destruct (periodic_search_best_cell h_s 1%positive 2%positive nu_s ev_a
              sd_s periods_a 0 1.5%float)
    as (sd' & phase & P1 & P2 & k & i & j & ph & Dj & c & params & max_ll
        & Hd & _ & _ & _ & _ & _ & _ & _ & _ & Hp & Hp0 & Hm & Hm0);
    [reflexivity | reflexivity | reflexivity
    | reflexivity | exact toy_shaped_s | apply toy_template_length
    | intros; apply toy_fold_ok_s | reflexivity |].
  exists sd', params, max_ll. eauto 10.
Defined.

Lemma periodic_search_records_witness :
  exists sd' snrs,
    deref (periodic_search 1%positive periods_a h_s).2
          (periodic_search 1%positive periods_a h_s).1
    = Some (OSearchData sd') /\
    sd_periods sd' = Some periods_a /\
    sd_Q_snr sd' = Some snrs /\ length snrs = 2%nat.
Proof.
  destruct (periodic_search_records h_s 1%positive 2%positive nu_s ev_a
              sd_s periods_a)
    as (sd' & snrs & max_ll & params & Hd & Hp & Hs & _ & _ & Hl & _);
    [reflexivity | reflexivity | reflexivity
    | reflexivity | exact toy_shaped_s | apply toy_template_length
    | intros; apply toy_fold_ok_s |].
  exists sd', snrs. auto.
Defined.

Lemma periodic_search_read_only_witness :
  exists l',
    (periodic_search 1%positive periods_a h_s).1 = Returned (PyRef l') /\
    (l' ∉ dom h_s) /\
    search_data_of (periodic_search 1%positive periods_a h_s).2 1%positive
    = Some sd_s.
Proof.
  destruct (periodic_search_read_only h_s 1%positive 2%positive nu_s ev_a
              sd_s periods_a)
    as (l' & sd' & Hret & Hfresh & _ & _ & Hsd & _);
    [reflexivity | reflexivity | reflexivity
    | reflexivity | exact toy_shaped_s | apply toy_template_length
    | intros; apply toy_fold_ok_s |].
  exists l'. auto.
Defined.

Lemma mask_new_session_witness :
  exists l' nu',
    (mask 1%positive 2 0.4 10 h_s).1 = Returned (PyRef l') /\
    (mask 1%positive 2 0.4 10 h_s).2 !! l' = Some (ONuance nu') /\
    nu_time nu'
    = select (nu_time nu_s) (outside 0.4 (phase (nu_time nu_s) 2 10)) /\
    search_data_of (mask 1%positive 2 0.4 10 h_s).2 1%positive = Some sd_s.
Proof.
  destruct (mask_new_session h_s 1%positive 2%positive nu_s sd_s
              2%float 0.4%float 10%float)
    as (l' & l1 & nu' & sd' & Hret & _ & _ & Hl' & _ & _ & Ht & _ & _ & _
        & _ & _ & _ & _ & _ & _ & _ & _ & Hsd);
    [reflexivity | reflexivity | reflexivity
    | exact toy_phase_length | apply search_surface_shaped
    | exact toy_session_shaped_s |].
  exists l', nu'. auto.
Defined.



End Instances.

(** * Further properties of the search engine *)

(** ** Linear search: what it keeps and what it leaves alone *)

Section LinearSearchMore.
Context {E : Externals}.

Lemma ltb_nan_l (x y : float) : is_nan x = true -> (x <? y)%float = false.
Proof.
  rewrite ltb_spec, F64Facts.is_nan_spec. unfold SFltb, SFcompare.
  destruct (Prim2SF x); simpl; congruence.
Qed.

(** Outside the sign policy the fitted log-likelihood is stored as it is:
    at every cell when [positive=False], and with [positive=True] at every
    cell whose fitted depth is not below zero, a NaN depth included. *)
Theorem linear_search_keeps_likelihood (h : heap) (self : loc) (nu : Nuance)
    ev (t0s Ds : vec) (positive : bool) (i j : nat) (t0 D : float) :
  h !! self = Some (ONuance nu) -> eval_m nu = Returned ev ->
  t0s !! i = Some t0 -> Ds !! j = Some D ->
  positive = false \/
  ((eval_transit nu ev t0 D).1.1 <? 0)%float = false \/
  is_nan (eval_transit nu ev t0 D).1.1 = true ->
  exists sd,
    search_data_of (linear_search self t0s Ds positive h).2 self = Some sd /\
    cell (sd_ll sd) i j = Some (eval_transit nu ev t0 D).2.
Proof.
  intros Hs He Ht HD Hkeep.
  destruct (raw_grid_cell nu ev t0s Ds i j t0 D Ht HD) as (r & Hr & Hx).
  eexists.
  split; [apply (linear_search_stored h self nu ev); assumption|].
  simpl.
  assert (Hraw : cell (map (map (fun c : float * float * float => c.2))
                         (raw_grid nu ev t0s Ds)) i j
                 = Some (eval_transit nu ev t0 D).2)
    by apply (cell_map2 (fun c => c.2) _ i j r _ Hr Hx).
  destruct positive; [|exact Hraw].
  assert (Hlt : ((eval_transit nu ev t0 D).1.1 <? 0)%float = false).
  { destruct Hkeep as [Hp | [Hlt | Hnan]];
      [discriminate | exact Hlt | apply ltb_nan_l, Hnan]. }
  rewrite (cell_assign_where_negative _ _ _ i j
             (eval_transit nu ev t0 D).1.1 (eval_transit nu ev t0 D).2).
  - rewrite Hlt. reflexivity.
  - apply (cell_map2 (fun c => c.1.1) _ i j r _ Hr Hx).
  - exact Hraw.
Qed.

(** A search adds one object and rebinds [self.search_data]; every other
    object stays as it was. In particular the surface of an earlier search
    is still there, unchanged, for whoever holds it, and the session no
    longer refers to it. *)
Theorem linear_search_frame (h : heap) (self : loc) (nu : Nuance) ev
    (t0s Ds : vec) (positive : bool) :
  h !! self = Some (ONuance nu) -> eval_m nu = Returned ev ->
  (forall k o, k <> self -> h !! k = Some o ->
     (linear_search self t0s Ds positive h).2 !! k = Some o) /\
  (forall old sd, nu_search_data nu = Some old ->
     h !! old = Some (OSearchData sd) ->
     (linear_search self t0s Ds positive h).2 !! old
       = Some (OSearchData sd) /\
     exists nu', (linear_search self t0s Ds positive h).2 !! self
                   = Some (ONuance nu') /\
                 nu_search_data nu' <> Some old).
Proof.
  intros Hs He.
  rewrite (linear_search_run h self nu ev) by assumption. simpl.
  assert (Hframe : forall k o, k <> self -> h !! k = Some o ->
            <[self := ONuance (set_search_data nu (Some (fresh (dom h))))]>
              (<[fresh (dom h) := OSearchData
                   (search_surface nu ev t0s Ds positive
                      (ev (zeros_like (nu_time nu))).1.1)]> h) !! k
            = Some o).
  { intros k o Hk Ho.
    rewrite lookup_insert_ne by congruence.
    rewrite lookup_insert_ne by (eapply fresh_not_in; eauto). exact Ho. }
  split; [exact Hframe|].
  intros old sd Hold Hsd.
  assert (Hne : old <> self) by (intros ->; congruence).
  split; [apply Hframe; assumption|].
  eexists. split; [apply lookup_insert_eq|].
  simpl. intros [= Heq]. exact (fresh_not_in h old _ Hsd Heq).
Qed.

(** What a search stores does not depend on the searches made before it:
    after any other search, [linear_search] stores the surface it would
    have stored on the session as it was. *)
Theorem linear_search_repeatable (h : heap) (self : loc) (nu : Nuance) ev
    (t0s Ds t0s' Ds' : vec) (positive positive' : bool) :
  h !! self = Some (ONuance nu) -> eval_m nu = Returned ev ->
  search_data_of
    (linear_search self t0s Ds positive
       (linear_search self t0s' Ds' positive' h).2).2 self
  = search_data_of (linear_search self t0s Ds positive h).2 self /\
  search_data_of (linear_search self t0s Ds positive h).2 self
  = Some (search_surface nu ev t0s Ds positive
            (ev (zeros_like (nu_time nu))).1.1).
Proof.
  intros Hs He.
  assert (H1 : search_data_of (linear_search self t0s Ds positive h).2 self
               = Some (search_surface nu ev t0s Ds positive
                         (ev (zeros_like (nu_time nu))).1.1))
    by (apply (linear_search_stored h self nu ev); assumption).
  split; [|exact H1]. rewrite H1.
  rewrite (linear_search_run h self nu ev t0s' Ds' positive') by assumption.
  cbn [snd].
  set (nu1 := set_search_data nu (Some (fresh (dom h)))).
  assert (He1 : eval_m nu1 = Returned ev).
  { unfold eval_m in *. simpl.
    destruct (nu_eval_m nu) as [[Liy LiX]|]; [|discriminate].
    injection He as <-. reflexivity. }
  rewrite (linear_search_stored _ self nu1 ev t0s Ds positive
             (lookup_insert_eq _ _ _) He1).
  reflexivity.
Qed.

(** A session built with [compute=False] has no evaluator: the property
    [ll0], [solve], [depth], [snr] and [linear_search] raise
    [AttributeError], and the failed search writes nothing. *)
Theorem no_evaluator_raises (time flux : vec) (error : pyerror)
    (kernel : option Kernel) (X : option mat) (mean : float) (h h' : heap)
    (l : loc) :
  __init__ time flux error kernel X false mean h = (Returned l, h') ->
  exists nu,
    h' !! l = Some (ONuance nu) /\
    ll0 nu = Raised AttributeError /\
    (forall t0 D P,
       solve nu t0 D P = Raised AttributeError /\
       depth nu t0 D P = Raised AttributeError /\
       snr nu t0 D P = Raised AttributeError) /\
    (forall t0s Ds positive,
       linear_search l t0s Ds positive h' = (Raised AttributeError, h')).
Proof.
  unfold __init__, mbind, M_bind, lift, alloc.
  destruct (squared error) as [d|e]; [|discriminate].
  intros [= <- <-]. eexists.
  split; [apply lookup_insert_eq|].
  split; [reflexivity|].
  split; [intros; repeat split|].
  intros t0s Ds positive.
  unfold linear_search, mbind, M_bind, load_nuance, lift.
  rewrite lookup_insert_eq. reflexivity.
Qed.

End LinearSearchMore.

(** ** Periodic search: edge cases, errors and ties *)

Section ArgmaxFirst.
Import F64 F64Facts.

Lemma SFleb_false_ltb (x y : spec_float) :
  sf_nan x = false -> sf_nan y = false ->
  SFleb x y = false -> SFltb y x = true.
Proof.
  unfold SFleb, SFltb, SFcompare.
  destruct x as [[]|[]| |[] m1 e1], y as [[]|[]| |[] m2 e2];
    simpl; intros; try congruence; sf_cases; simpl in *;
    try congruence; try lia.
Qed.

Lemma leb_false_ltb (x y : float) :
  is_nan x = false -> is_nan y = false ->
  (x <=? y)%float = false -> (y <? x)%float = true.
Proof. rewrite leb_spec, ltb_spec, !is_nan_spec. apply SFleb_false_ltb. Qed.

(** What [np_le c x = false] says: [x] is a number and, when [c] is one
    too, it is strictly below [c]. *)
Lemma np_le_false (c x : float) :
  np_le c x = false ->
  is_nan x = false /\ (is_nan c = false -> (x <? c)%float = true).
Proof.
  unfold np_le. destruct (is_nan x) eqn:Hx; simpl; [discriminate|].
  intros Hle. split; [reflexivity|].
  intros Hc. apply leb_false_ltb; assumption.
Qed.

Lemma argmax_from_first (a pre : vec) (mp : float) (best : nat) :
  pre !! best = Some mp ->
  (forall j x, (j < best)%nat -> pre !! j = Some x -> np_le mp x = false) ->
  Forall (fun x => np_le x mp = true) pre ->
  forall j x, (j < argmax_from mp best (length pre) a)%nat ->
    (pre ++ a) !! j = Some x ->
    exists c, (pre ++ a) !! argmax_from mp best (length pre) a = Some c /\
              np_le c x = false.
Proof.
  revert pre mp best.
  induction a as [|y a IH]; intros pre mp best Hbest Hfirst Hmax j x Hj Hx;
    simpl in *.
  - rewrite app_nil_r in *. exists mp. eauto.
  - assert (Hbl : (best < length pre)%nat)
      by (apply lookup_lt_is_Some; eauto).
    destruct (is_nan mp) eqn:Hnan.
    + exists mp. rewrite lookup_app_l by lia. split; [exact Hbest|].
      rewrite lookup_app_l in Hx by lia. eauto.
    + assert (Hsnoc : forall l : vec, (pre ++ [y]) ++ l = pre ++ y :: l)
        by (intros l; rewrite <- app_assoc; reflexivity).
      assert (Hlen : length (pre ++ [y]) = S (length pre))
        by (rewrite length_app; simpl; lia).
      destruct (y <=? mp)%float eqn:Hle; simpl in *.
      * rewrite <- Hsnoc, <- Hlen. rewrite <- Hsnoc in Hx.
        rewrite <- Hlen in Hj.
        refine (IH (pre ++ [y]) mp best _ _ _ j x Hj Hx).
        -- rewrite lookup_app_l by lia. exact Hbest.
        -- intros j' x' Hj' Hx'. rewrite lookup_app_l in Hx' by lia. eauto.
        -- apply Forall_app. split; [exact Hmax|].
           constructor; [|constructor].
           unfold np_le. rewrite Hnan, Hle. reflexivity.
      * rewrite <- Hsnoc, <- Hlen. rewrite <- Hsnoc in Hx.
        rewrite <- Hlen in Hj.
        assert (Hmy : np_le mp y = true).
        { unfold np_le. destruct (is_nan y) eqn:Hy; [reflexivity|].
          simpl. apply leb_total; assumption. }
        refine (IH (pre ++ [y]) y (length pre) _ _ _ j x Hj Hx).
        -- rewrite lookup_app_r by lia.
           replace (length pre - length pre)%nat with 0%nat by lia.
           reflexivity.
        -- intros j' x' Hj' Hx'. rewrite lookup_app_l in Hx' by lia.
           rewrite Forall_lookup in Hmax.
           pose proof (np_le_leb _ _ Hnan (Hmax j' x' Hx')) as Hx'mp.
           unfold np_le.
           destruct (is_nan x') eqn:Hnx.
           { rewrite (leb_nan_l x' mp Hnx) in Hx'mp. discriminate. }
           simpl. destruct (y <=? x')%float eqn:Hyx; [|reflexivity].
           rewrite (leb_trans y x' mp Hyx Hx'mp) in Hle. discriminate.
        -- apply Forall_app. split.
           ++ eapply Forall_impl; [exact Hmax|].
              intros z Hz. simpl in Hz. exact (np_le_trans z mp y Hz Hmy).
           ++ constructor; [apply np_le_refl|constructor].
Qed.

(** [np.argmax] returns the first position of the maximum: every earlier
    entry is strictly below the entry it selects. *)
Lemma argmax_first (a : vec) (k j : nat) (x : float) :
  argmax a = Returned k -> (j < k)%nat -> a !! j = Some x ->
  exists c, a !! k = Some c /\ np_le c x = false.
Proof.
  destruct a as [|y a]; [discriminate|]. intros [= <-] Hj Hx.
  refine (argmax_from_first a [y] y 0 _ _ _ j x Hj Hx).
  - reflexivity.
  - intros j' x' Hj'. lia.
  - constructor; [apply np_le_refl|constructor].
Qed.

End ArgmaxFirst.

Section PeriodicSearchMore.
Context {E : Externals}.
Import F64.

(** With no period to search, [periodic_search] needs neither the
    evaluator nor the fold: it returns a copy of the surface that carries
    four empty arrays. *)
Theorem periodic_search_no_period (h : heap) (self old : loc) (nu : Nuance)
    (sd : SearchData) :
  h !! self = Some (ONuance nu) -> nu_search_data nu = Some old ->
  h !! old = Some (OSearchData sd) ->
  exists l',
    (l' ∉ dom h) /\
    periodic_search self [] h
    = (Returned (PyRef l'),
       <[l' := OSearchData (set_folded sd [] [] [] [])]> h).
Proof.
  intros Hs Hold Hsd. exists (fresh (dom h)).
  split; [apply is_fresh|].
  apply (periodic_search_run h self old nu sd [] [] Hs Hold Hsd).
  constructor.
Qed.

(** The loop stops at the first period whose turn raises, with that
    exception. *)
Lemma period_loop_raises (nu : Nuance) (sd : SearchData) (pre post : vec)
    (rs : list (float * vec * float)) (P : float) (e : exn) :
  Forall2 (fun P r => search_period nu sd P = Returned r) pre rs ->
  search_period nu sd P = Raised e ->
  forall (g : nat -> nat) (st : vec * mat * vec),
    period_loop nu sd (imap (fun i x => (g i, x)) (pre ++ P :: post)) st
    = Raised e.
Proof.
  intros HF HP. induction HF as [|Q r pre rs HQ HF IH]; intros g st.
  - simpl. unfold mbind, outcome_bind. rewrite HP. reflexivity.
  - rewrite <- app_comm_cons, imap_cons. cbn [period_loop].
    unfold mbind, outcome_bind. rewrite HQ.
    exact (IH (fun i => g (S i)) _).
Qed.

(** When the fold of some period is empty, [np.argmax] raises
    [ValueError], and so does [periodic_search] if the periods before it
    went through: nothing is returned, and the session and its surface
    are as they were. *)
Theorem periodic_search_empty_fold_raises (h : heap) (self old : loc)
    (nu : Nuance) ev (sd : SearchData) (pre post : vec) (P : float) :
  h !! self = Some (ONuance nu) -> nu_search_data nu = Some old ->
  h !! old = Some (OSearchData sd) ->
  eval_m nu = Returned ev -> shaped nu ev -> template_length nu ->
  (forall P', P' ∈ pre -> fold_ok sd P') ->
  concat (fold_ll sd P).2 = [] ->
  (periodic_search self (pre ++ P :: post) h).1 = Raised ValueError /\
  (forall k o, h !! k = Some o ->
     (periodic_search self (pre ++ P :: post) h).2 !! k = Some o) /\
  search_data_of (periodic_search self (pre ++ P :: post) h).2 self
  = Some sd.
Proof.
  intros Hs Hold Hsd He Hsh Htl Hfold Hempty.
  destruct (search_periods_exist nu ev sd pre He Hsh Htl Hfold)
    as (rs & Hrs).
  assert (HP : search_period nu sd P = Raised ValueError).
  { unfold search_period. destruct (fold_ll sd P) as [[phase P1] P2].
    simpl in Hempty. rewrite Hempty. reflexivity. }
  pose proof (periodic_search_frame h self (pre ++ P :: post)) as Hframe.
  split.
  - unfold periodic_search, SearchData_copy, update_sd.
    unfold mbind, M_bind, load_nuance, load_sd, lift, alloc, store, mret,
      M_ret.
    rewrite Hs, Hold, Hsd, lookup_insert_eq.
    unfold enumerate.
    rewrite (period_loop_raises nu sd pre post rs P ValueError Hrs HP
               (fun i => i)).
    reflexivity.
  - split; [exact Hframe|].
    unfold search_data_of.
    rewrite (Hframe self _ Hs), Hold, (Hframe old _ Hsd). reflexivity.
Qed.

(** Ties go to the first cell in row-major order: every cell of [P2] that
    comes before the selected one, at an earlier phase or at the same
    phase and a shorter duration, holds a number strictly below the
    selected value (when that is not a NaN). *)
Theorem periodic_search_first_maximum (h : heap) (self old : loc)
    (nu : Nuance) ev (sd : SearchData) (periods : vec) (p : nat)
    (P : float) :
  h !! self = Some (ONuance nu) -> nu_search_data nu = Some old ->
  h !! old = Some (OSearchData sd) ->
  eval_m nu = Returned ev -> shaped nu ev -> template_length nu ->
  (forall P', P' ∈ periods -> fold_ok sd P') ->
  periods !! p = Some P ->
  exists sd' params phase P1 P2 i j ph Dj c,
    deref (periodic_search self periods h).2
          (periodic_search self periods h).1 = Some (OSearchData sd') /\
    sd_Q_params sd' = Some params /\
    fold_ll sd P = (phase, P1, P2) /\
    phase !! i = Some ph /\ sd_Ds sd !! j = Some Dj /\
    params !! p = Some [(ph * P)%float; Dj; P] /\
    cell P2 i j = Some c /\
    forall a b x, cell P2 a b = Some x ->
      (a < i \/ (a = i /\ b < j))%nat ->
      is_nan x = false /\ (is_nan c = false -> (x <? c)%float = true).
Proof.
  intros Hs Hold Hsd He Hsh Htl Hfold Hp.
  destruct (periodic_search_result h self old nu ev sd periods
              Hs Hold Hsd He Hsh Htl Hfold) as (rs & Hrs & Hrun).
  destruct (Forall2_lookup_l _ _ _ _ _ Hrs Hp) as (r & Hr & HrP).
  assert (HfP : fold_ok sd P)
    by (apply Hfold; eapply list_elem_of_lookup_2; exact Hp).
  destruct (search_period_run nu ev sd P He Hsh Htl HfP)
    as (phase & P1 & P2 & k & i & j & ph & Dj & c & s
        & HF & Hk & Hij & Hph & HDj & Hc & _ & _ & Hsp).
  rewrite Hsp in HrP. injection HrP as <-.
  unfold fold_ok in HfP. rewrite HF in HfP.
  destruct HfP as (Hne & HDs & Hlen & Hrows).
  assert (Hcols : (0 < length (sd_Ds sd))%nat).
  { destruct (sd_Ds sd); [congruence|simpl; lia]. }
  assert (Hshape : shape P2 = (length P2, length (sd_Ds sd))).
  { unfold shape. destruct P2 as [|r0 P2]; [congruence|].
    inversion Hrows; subst. f_equal. assumption. }
  rewrite Hshape in Hij. unfold unravel_index in Hij. simpl in Hij.
  injection Hij as Hi Hj.
  eexists _, _, phase, P1, P2, i, j, ph, Dj, c.
  rewrite Hrun. simpl. rewrite lookup_insert_eq.
  split; [reflexivity|]. split; [reflexivity|].
  do 3 (split; [assumption|]).
  split; [rewrite list_lookup_fmap, Hr; reflexivity|].
  split; [assumption|].
  intros a b x Hx Hbefore.
  pose proof Hx as Hx'.
  apply cell_Some in Hx' as (ra & Hra & Hb).
  assert (Hbl : (b < length (sd_Ds sd))%nat).
  { unfold rows_of in Hrows. rewrite Forall_lookup in Hrows.
    rewrite <- (Hrows a ra Hra). apply lookup_lt_is_Some. eauto. }
  assert (Hflat : concat P2 !! (a * length (sd_Ds sd) + b)%nat = Some x).
  { rewrite (concat_lookup_rect _ _ _ Hrows Hcols).
    rewrite Nat.div_add_l, Nat.div_small, Nat.add_0_r by lia.
    replace (a * length (sd_Ds sd) + b)%nat
      with (b + a * length (sd_Ds sd))%nat by lia.
    rewrite Nat.Div0.mod_add, Nat.mod_small by lia. exact Hx. }
  assert (Hkk : k = (i * length (sd_Ds sd) + j)%nat).
  { subst i j. rewrite Nat.mul_comm. apply Nat.div_mod_eq. }
  assert (Hjl : (j < length (sd_Ds sd))%nat)
    by (subst j; apply Nat.mod_upper_bound; lia).
  assert (Hlt : (a * length (sd_Ds sd) + b < k)%nat).
  { rewrite Hkk. destruct Hbefore as [Ha | [-> Hb']]; [|lia].
    assert ((a + 1) * length (sd_Ds sd) <= i * length (sd_Ds sd))%nat
      by (apply Nat.mul_le_mono_r; lia).
    lia. }
  destruct (argmax_first (concat P2) k _ x Hk Hlt Hflat) as (c' & Hc' & Hle).
  rewrite (concat_lookup_rect _ _ _ Hrows Hcols) in Hc'.
  rewrite Hi, Hj in Hc'. rewrite Hc in Hc'. injection Hc' as <-.
  apply np_le_false. exact Hle.
Qed.

(** [periodic_search] can be run again: on the heap the first run left,
    the same periods give a second, distinct object with the same contents,
    and the first result is still what it was. *)
Theorem periodic_search_repeatable (h : heap) (self old : loc) (nu : Nuance)
    ev (sd : SearchData) (periods : vec) :
  h !! self = Some (ONuance nu) -> nu_search_data nu = Some old ->
  h !! old = Some (OSearchData sd) ->
  eval_m nu = Returned ev -> shaped nu ev -> template_length nu ->
  (forall P, P ∈ periods -> fold_ok sd P) ->
  exists l1 l2 sd',
    (periodic_search self periods h).1 = Returned (PyRef l1) /\
    (periodic_search self periods (periodic_search self periods h).2).1
    = Returned (PyRef l2) /\
    l1 <> l2 /\
    (periodic_search self periods h).2 !! l1 = Some (OSearchData sd') /\
    (periodic_search self periods (periodic_search self periods h).2).2
      !! l1 = Some (OSearchData sd') /\
    (periodic_search self periods (periodic_search self periods h).2).2
      !! l2 = Some (OSearchData sd').
Proof.
  intros Hs Hold Hsd He Hsh Htl Hfold.
  destruct (periodic_search_result h self old nu ev sd periods
              Hs Hold Hsd He Hsh Htl Hfold) as (rs & Hrs & Hrun).
  set (h1 := (periodic_search self periods h).2).
  assert (Hs1 : h1 !! self = Some (ONuance nu))
    by (apply periodic_search_frame; exact Hs).
  assert (Hsd1 : h1 !! old = Some (OSearchData sd))
    by (apply periodic_search_frame; exact Hsd).
  pose proof (periodic_search_run h1 self old nu sd periods rs
                Hs1 Hold Hsd1 Hrs) as Hrun2.
  assert (Hl1 : h1 !! fresh (dom h)
                = Some (OSearchData
                          (set_folded sd periods ((fun r => r.1.1) <$> rs)
                             ((fun r => r.2) <$> rs)
                             ((fun r => r.1.2) <$> rs))))
    by (unfold h1; rewrite Hrun; simpl; apply lookup_insert_eq).
  assert (Hne : fresh (dom h1) <> fresh (dom h))
    by (eapply fresh_not_in; exact Hl1).
  eexists (fresh (dom h)), (fresh (dom h1)), _.
  split; [rewrite Hrun; reflexivity|].
  split; [rewrite Hrun2; reflexivity|].
  split; [congruence|].
  split; [exact Hl1|].
  rewrite Hrun2. simpl.
  split; [|apply lookup_insert_eq].
  rewrite lookup_insert_ne by exact Hne. exact Hl1.
Qed.

End PeriodicSearchMore.

(** ** Masking: the new session *)

Section Select.
Context {A : Type}.

Lemma select_nil_r (a : list A) : select a [] = [].
Proof. destruct a; reflexivity. Qed.

Lemma select_cons (x : A) (a : list A) (b : bool) (msk : list bool) :
  select (x :: a) (b :: msk)
  = if b then x :: select a msk else select a msk.
Proof.
  unfold select. simpl. destruct b.
  - rewrite filter_cons_True by reflexivity. reflexivity.
  - rewrite filter_cons_False by (simpl; discriminate). reflexivity.
Qed.

Lemma select_sublist (a : list A) (msk : list bool) :
  sublist (select a msk) a.
Proof.
  revert msk. induction a as [|x a IH]; intros msk.
  - constructor.
  - destruct msk as [|b msk]; [rewrite select_nil_r; apply sublist_nil_l|].
    rewrite select_cons. destruct b.
    + apply sublist_skip, IH.
    + apply sublist_cons, IH.
Qed.

Lemma select_all (a : list A) (msk : list bool) :
  length a = length msk -> Forall (fun b => b = true) msk ->
  select a msk = a.
Proof.
  revert msk. induction a as [|x a IH]; intros msk Hl Hall.
  - reflexivity.
  - destruct msk as [|b msk]; [discriminate|].
    inversion Hall; subst. rewrite select_cons.
    f_equal. apply IH; [simpl in Hl; lia|assumption].
Qed.

Lemma select_map_filter (g : A -> bool) (a : list A) :
  select a (map g a) = filter (fun x => g x = true) a.
Proof.
  induction a as [|x a IH]; [reflexivity|].
  simpl map. rewrite select_cons, IH. destruct (g x) eqn:Hg.
  - rewrite filter_cons_True by exact Hg. reflexivity.
  - rewrite filter_cons_False by congruence. reflexivity.
Qed.

End Select.

Lemma length_select {A B} (a : list A) (b : list B) (msk : list bool) :
  length a = length b -> length (select a msk) = length (select b msk).
Proof.
  revert b msk. induction a as [|x a IH]; intros b msk Hl.
  - destruct b; [reflexivity|discriminate].
  - destruct b as [|y b]; [discriminate|].
    destruct msk as [|c msk]; [rewrite !select_nil_r; reflexivity|].
    rewrite !select_cons. simpl in Hl.
    destruct c; simpl; rewrite (IH b msk) by lia; reflexivity.
Qed.

Lemma rows_of_select (c : nat) (a : mat) (msk : list bool) :
  rows_of c a -> rows_of c (select a msk).
Proof.
  unfold rows_of. rewrite !Forall_forall. intros Ha r Hr.
  apply select_elem in Hr as (i & Hi & _).
  apply Ha. eapply list_elem_of_lookup_2. exact Hi.
Qed.

Ltac step H := rewrite (bind_run _ _ _ _ _ H); cbv beta.

Ltac assign tac :=
  lazymatch goal with
  | |- (update_sd ?l ?f ≫= _) (<[?l := OSearchData ?sd]> ?h) = _ =>
      let H := fresh "Hassign" in
      eassert (H : f sd = Returned _);
      [ cbv beta; tac
      | rewrite (bind_run _ _ _ _ _ (update_sd_run h l f sd _ H));
        cbv beta; clear H ]
  end.

Section MaskingMore.
Context {E : Externals}.

(** The heap [mask] leaves, in full: the copy of the surface with its
    seven assignments, and the session the constructor builds from the
    masked arrays. *)
Lemma mask_result (h : heap) (self old : loc) (nu : Nuance)
    (sd : SearchData) (t0 D P : float) :
  h !! self = Some (ONuance nu) -> nu_search_data nu = Some old ->
  h !! old = Some (OSearchData sd) ->
  phase_length -> grids_shaped sd -> session_shaped nu ->
  let m1 := outside D (phase (sd_t0s sd) t0 P) in
  let m2 := outside D (phase (nu_time nu) t0 P) in
  let l1 := fresh (dom h) in
  let sd' := mkSearchData (select (sd_t0s sd) m1) (sd_Ds sd)
               (select (sd_ll sd) m1) (select (sd_z sd) m1)
               (select (sd_vz sd) m1) (sd_ll0 sd) None (sd_Q_snr sd)
               (sd_Q_ll sd) (sd_Q_params sd) None None in
  let h1 := <[l1 := OSearchData sd']> h in
  let l2 := fresh (dom h1) in
  let time' := select (nu_time nu) m2 in
  let kernel' := match nu_kernel nu with
                 | None => Constant 0%float
                 | Some k => k
                 end in
  exists d e',
    squared e' = Returned d /\
    e' = match nu_error nu with
         | ErrArray e => ErrArray (select e m2)
         | e => e
         end /\
    mask self t0 D P h
    = (Returned (PyRef l2),
       <[l2 := ONuance
           (set_search_data
              (_compute_L
                 (mkNuance time' (select (nu_flux nu) m2) e' (nu_kernel nu)
                    0%float (map (fun r => select r m2) (nu_X nu))
                    (GaussianProcess kernel' time' d 0%float) None None))
              (Some l1))]> h1).
Proof.
  intros Hs Hold Hsd Hph (Lll & Lz & Lvz & _) (Lflux & LX & Lerr).
  cbv zeta.
  set (m1 := outside D (phase (sd_t0s sd) t0 P)).
  set (m2 := outside D (phase (nu_time nu) t0 P)).
  assert (Hm1 : length m1 = length (sd_t0s sd))
    by (unfold m1; rewrite length_outside; apply Hph).
  assert (Hm2 : length m2 = length (nu_time nu))
    by (unfold m2; rewrite length_outside; apply Hph).
  assert (Herr : exists d e',
             squared e' = Returned d /\
             e' = match nu_error nu with
                  | ErrArray e => ErrArray (select e m2)
                  | e => e
                  end /\
             match nu_error nu with
             | ErrArray e => e'' ← bool_index e m2; mret (ErrArray e'')
             | e => Returned e
             end = Returned e').
  { destruct (nu_error nu) as [|x|e]; [contradiction| |].
    - exists (DiagScalar (pow2 x)), (ErrScalar x).
      split; [reflexivity|]. split; reflexivity.
    - exists (DiagArray (map (fun x => (x * x)%float) (select e m2))),
        (ErrArray (select e m2)).
      split; [reflexivity|]. split; [reflexivity|].
      rewrite bool_index_run by congruence. reflexivity. }
  destruct Herr as (d & e' & Hsq & He' & Herr).
  exists d, e'. split; [exact Hsq|]. split; [exact He'|].
  unfold mask.
  step (load_nuance_run h self nu Hs). rewrite Hold.
  rewrite (bind_run (lift (Returned old)) _ h h old eq_refl). cbv beta.
  step (copy_run h old sd Hsd).
  step (load_sd_run _ _ sd (lookup_insert_eq h (fresh (dom h))
                              (OSearchData sd))).
  fold m1 m2.
  do 3 (assign ltac:(reflexivity)).
  do 4 (assign ltac:(cbn [sd_t0s sd_ll sd_z sd_vz set_llv set_llc
                           set_periods set_t0s set_ll set_z set_vz];
                     rewrite bool_index_run by congruence; reflexivity)).
  rewrite Herr.
  erewrite (bind_run (lift (Returned e')) _ _ _ e' eq_refl). cbv beta.
  rewrite (bool_index_run (nu_time nu) m2) by congruence.
  erewrite (bind_run (lift (Returned _)) _ _ _ _ eq_refl). cbv beta.
  rewrite (bool_index_run (nu_flux nu) m2) by congruence.
  erewrite (bind_run (lift (Returned _)) _ _ _ _ eq_refl). cbv beta.
  rewrite (bool_index_cols_run _ (nu_X nu) m2 LX) by congruence.
  erewrite (bind_run (lift (Returned _)) _ _ _ _ eq_refl). cbv beta.
  erewrite (bind_run _ _ _ _ _
              (init_run (select (nu_time nu) m2) (select (nu_flux nu) m2)
                 e' (nu_kernel nu) (map (fun r => select r m2) (nu_X nu))
                 0%float d _ Hsq)).
  cbv beta.
  erewrite (bind_run _ _ _ _ _
              (load_nuance_run _ _ _ (lookup_insert_eq _ _ _))).
  cbv beta. unfold mbind, M_bind, store, mret, M_ret.
  rewrite insert_insert_eq. reflexivity.
Qed.

Lemma mask_facts (h : heap) (self old : loc) (nu : Nuance)
    (sd : SearchData) (t0 D P : float) :
  h !! self = Some (ONuance nu) -> nu_search_data nu = Some old ->
  h !! old = Some (OSearchData sd) ->
  phase_length -> grids_shaped sd -> session_shaped nu ->
  exists l' l1 nu' sd' d,
    mask self t0 D P h
    = (Returned (PyRef l'),
       <[l' := ONuance nu']> (<[l1 := OSearchData sd']> h)) /\
    l1 = fresh (dom h) /\
    l' = fresh (dom (<[l1 := OSearchData sd']> h)) /\
    sd' = mkSearchData
            (select (sd_t0s sd) (outside D (phase (sd_t0s sd) t0 P)))
            (sd_Ds sd)
            (select (sd_ll sd) (outside D (phase (sd_t0s sd) t0 P)))
            (select (sd_z sd) (outside D (phase (sd_t0s sd) t0 P)))
            (select (sd_vz sd) (outside D (phase (sd_t0s sd) t0 P)))
            (sd_ll0 sd) None (sd_Q_snr sd) (sd_Q_ll sd) (sd_Q_params sd)
            None None /\
    nu_time nu' = select (nu_time nu) (outside D (phase (nu_time nu) t0 P)) /\
    nu_flux nu' = select (nu_flux nu) (outside D (phase (nu_time nu) t0 P)) /\
    nu_X nu' = map (fun r => select r (outside D (phase (nu_time nu) t0 P)))
                 (nu_X nu) /\
    nu_error nu' = match nu_error nu with
                   | ErrArray e =>
                       ErrArray
                         (select e (outside D (phase (nu_time nu) t0 P)))
                   | e => e
                   end /\
    nu_kernel nu' = nu_kernel nu /\
    nu_mean nu' = 0%float /\
    nu_search_data nu' = Some l1 /\
    squared (nu_error nu') = Returned d /\
    nu_gp nu' = GaussianProcess
                  (match nu_kernel nu with
                   | None => Constant 0%float
                   | Some k => k
                   end) (nu_time nu') d 0%float /\
    nu_eval_m nu'
    = Some (solve_triangular (nu_gp nu') (nu_flux nu'),
            solve_triangular_2d (nu_gp nu') (transpose (nu_X nu'))).
Proof.
  intros Hs Hold Hsd Hph Hgrid Hsess.
  destruct (mask_result h self old nu sd t0 D P Hs Hold Hsd Hph Hgrid Hsess)
    as (d & e' & Hsq & He' & Hrun).
  cbv zeta in Hrun.
  eexists _, _, _, _, d. split; [exact Hrun|].
  cbn. rewrite <- He'. repeat split. exact Hsq.
Qed.

(** The result of [mask] in the heap, with the shapes it keeps. *)
Lemma mask_shapes (h : heap) (self old : loc) (nu : Nuance)
    (sd : SearchData) (t0 D P : float) :
  h !! self = Some (ONuance nu) -> nu_search_data nu = Some old ->
  h !! old = Some (OSearchData sd) ->
  phase_length -> grids_shaped sd -> session_shaped nu ->
  exists l' l1 nu' sd',
    (mask self t0 D P h).1 = Returned (PyRef l') /\
    (mask self t0 D P h).2 !! l' = Some (ONuance nu') /\
    nu_search_data nu' = Some l1 /\
    (mask self t0 D P h).2 !! l1 = Some (OSearchData sd') /\
    session_shaped nu' /\ grids_shaped sd' /\
    nu_time nu' = select (nu_time nu) (outside D (phase (nu_time nu) t0 P)) /\
    nu_flux nu' = select (nu_flux nu) (outside D (phase (nu_time nu) t0 P)) /\
    nu_X nu' = map (fun r => select r (outside D (phase (nu_time nu) t0 P)))
                 (nu_X nu) /\
    nu_error nu' = match nu_error nu with
                   | ErrArray e =>
                       ErrArray
                         (select e (outside D (phase (nu_time nu) t0 P)))
                   | e => e
                   end /\
    sd_t0s sd' = select (sd_t0s sd) (outside D (phase (sd_t0s sd) t0 P)) /\
    sd_ll sd' = select (sd_ll sd) (outside D (phase (sd_t0s sd) t0 P)) /\
    sd_z sd' = select (sd_z sd) (outside D (phase (sd_t0s sd) t0 P)) /\
    sd_vz sd' = select (sd_vz sd) (outside D (phase (sd_t0s sd) t0 P)).
Proof.
  intros Hs Hold Hsd Hph Hgrid Hsess.
  destruct (mask_facts h self old nu sd t0 D P Hs Hold Hsd Hph Hgrid Hsess)
    as (l' & l1 & nu' & sd' & d & Hrun & Hl1 & Hl' & Hsd' & Ht & Hf & HX
        & He & _ & _ & Hsearch & _).
  assert (Hne : l' <> l1).
  { intros Heq. apply (is_fresh (dom (<[l1 := OSearchData sd']> h))).
    rewrite <- Hl', Heq, dom_insert_L.
    apply elem_of_union_l, elem_of_singleton. reflexivity. }
  destruct Hsess as (Lflux & LX & Lerr).
  destruct Hgrid as (Lll & Lz & Lvz & Rll & Rz & Rvz).
  exists l', l1, nu', sd'. rewrite Hrun. cbn [fst snd].
  split; [reflexivity|].
  split; [apply lookup_insert_eq|].
  split; [exact Hsearch|].
  split; [rewrite lookup_insert_ne by exact Hne; apply lookup_insert_eq|].
  split.
  { unfold session_shaped. rewrite Ht, Hf, HX, He.
    split; [apply length_select; exact Lflux|].
    split.
    - unfold rows_of in *. rewrite map_fmap, Forall_fmap.
      eapply Forall_impl; [exact LX|].
      intros r Hr. simpl. apply length_select. exact Hr.
    - destruct (nu_error nu) as [|x|e]; [contradiction|exact I|].
      apply length_select. exact Lerr. }
  split.
  { rewrite Hsd'. unfold grids_shaped. cbn.
    split; [apply length_select; exact Lll|].
    split; [apply length_select; exact Lz|].
    split; [apply length_select; exact Lvz|].
    repeat split; apply rows_of_select; assumption. }
  do 4 (split; [assumption|]).
  rewrite Hsd'. repeat split.
Qed.

(** The session [mask] returns is built by the constructor with its
    defaults: its [mean] is 0.0 whatever the mean of the original, its
    kernel attribute is the original's, the noise model is rebuilt on the
    kept times and the evaluator is computed, so that the new session can
    be searched at once. *)
Theorem mask_rebuilds_session (h : heap) (self old : loc) (nu : Nuance)
    (sd : SearchData) (t0 D P : float) :
  h !! self = Some (ONuance nu) -> nu_search_data nu = Some old ->
  h !! old = Some (OSearchData sd) ->
  phase_length -> grids_shaped sd -> session_shaped nu ->
  exists l' nu' d ev',
    (mask self t0 D P h).1 = Returned (PyRef l') /\
    (mask self t0 D P h).2 !! l' = Some (ONuance nu') /\
    nu_mean nu' = 0%float /\
    nu_kernel nu' = nu_kernel nu /\
    squared (nu_error nu') = Returned d /\
    nu_gp nu' = GaussianProcess
                  (match nu_kernel nu with
                   | None => Constant 0%float
                   | Some k => k
                   end) (nu_time nu') d 0%float /\
    eval_m nu' = Returned ev' /\
    forall t0s Ds positive,
      (linear_search l' t0s Ds positive (mask self t0 D P h).2).1
      = Returned PyNone.
Proof.
  intros Hs Hold Hsd Hph Hgrid Hsess.
  destruct (mask_facts h self old nu sd t0 D P Hs Hold Hsd Hph Hgrid Hsess)
    as (l' & l1 & nu' & sd' & d & Hrun & _ & _ & _ & _ & _ & _ & _ & Hk
        & Hmean & _ & Hsq & Hgp & Hev).
  assert (He : eval_m nu' = Returned (eval_m_body nu'
                 (solve_triangular (nu_gp nu') (nu_flux nu'))
                 (solve_triangular_2d (nu_gp nu') (transpose (nu_X nu')))))
    by (unfold eval_m; rewrite Hev; reflexivity).
  eexists l', nu', d, _.
  rewrite Hrun. cbn [fst snd].
  split; [reflexivity|].
  split; [apply lookup_insert_eq|].
  do 4 (split; [assumption|]).
  split; [exact He|].
  intros t0s Ds positive.
  rewrite (linear_search_run _ l' nu' _ t0s Ds positive
             (lookup_insert_eq _ _ _) He).
  reflexivity.
Qed.

(** On the copied surface [mask] clears [periods], [llv] and [llc] and
    subsets the grids, but leaves [Q_snr], [Q_ll] and [Q_params] as the
    copy had them. *)
Theorem mask_surface_attributes (h : heap) (self old : loc) (nu : Nuance)
    (sd : SearchData) (t0 D P : float) :
  h !! self = Some (ONuance nu) -> nu_search_data nu = Some old ->
  h !! old = Some (OSearchData sd) ->
  phase_length -> grids_shaped sd -> session_shaped nu ->
  exists l' sd',
    (mask self t0 D P h).1 = Returned (PyRef l') /\
    search_data_of (mask self t0 D P h).2 l' = Some sd' /\
    sd_periods sd' = None /\ sd_llv sd' = None /\ sd_llc sd' = None /\
    sd_Q_snr sd' = sd_Q_snr sd /\ sd_Q_ll sd' = sd_Q_ll sd /\
    sd_Q_params sd' = sd_Q_params sd.
Proof.
  intros Hs Hold Hsd Hph Hgrid Hsess.
  destruct (mask_facts h self old nu sd t0 D P Hs Hold Hsd Hph Hgrid Hsess)
    as (l' & l1 & nu' & sd' & d & Hrun & Hl1 & Hl' & Hsd' & _ & _ & _ & _
        & _ & _ & Hsearch & _).
  assert (Hne : l' <> l1).
  { intros Heq. apply (is_fresh (dom (<[l1 := OSearchData sd']> h))).
    rewrite <- Hl', Heq, dom_insert_L.
    apply elem_of_union_l, elem_of_singleton. reflexivity. }
  exists l', sd'. rewrite Hrun. cbn [fst snd].
  split; [reflexivity|].
  split.
  { unfold search_data_of. rewrite lookup_insert_eq, Hsearch.
    rewrite lookup_insert_ne by exact Hne.
    rewrite lookup_insert_eq. reflexivity. }
  rewrite Hsd'. repeat split.
Qed.

(** [mask] keeps the arrays of a session in step: in its result the flux,
    the columns of the design matrix and an array of errors have the
    length of the time series, and the three grids have one row per kept
    epoch and one column per duration. The result can be masked again. *)
Theorem mask_keeps_shapes (h : heap) (self old : loc) (nu : Nuance)
    (sd : SearchData) (t0 D P : float) :
  h !! self = Some (ONuance nu) -> nu_search_data nu = Some old ->
  h !! old = Some (OSearchData sd) ->
  phase_length -> grids_shaped sd -> session_shaped nu ->
  exists l' nu' sd',
    (mask self t0 D P h).1 = Returned (PyRef l') /\
    (mask self t0 D P h).2 !! l' = Some (ONuance nu') /\
    search_data_of (mask self t0 D P h).2 l' = Some sd' /\
    session_shaped nu' /\ grids_shaped sd' /\
    forall t0' D' P',
      exists l'',
        (mask l' t0' D' P' (mask self t0 D P h).2).1 = Returned (PyRef l'').
Proof.
  intros Hs Hold Hsd Hph Hgrid Hsess.
  destruct (mask_shapes h self old nu sd t0 D P Hs Hold Hsd Hph Hgrid Hsess)
    as (l' & l1 & nu' & sd' & Hret & Hh' & Hsearch & Hh1 & Hsess' & Hgrid'
        & _).
  exists l', nu', sd'.
  split; [exact Hret|]. split; [exact Hh'|].
  split; [unfold search_data_of; rewrite Hh', Hsearch, Hh1; reflexivity|].
  split; [exact Hsess'|]. split; [exact Hgrid'|].
  intros t0' D' P'.
  destruct (mask_shapes _ l' l1 nu' sd' t0' D' P' Hh' Hsearch Hh1 Hph
              Hgrid' Hsess')
    as (l'' & ? & ? & ? & Hret' & _).
  exists l''. exact Hret'.
Qed.

(** [mask] only removes: the kept times, fluxes, design-matrix columns
    and grid epochs are subsequences of the original ones, in the original
    order. *)
Theorem mask_subsequence (h : heap) (self old : loc) (nu : Nuance)
    (sd : SearchData) (t0 D P : float) :
  h !! self = Some (ONuance nu) -> nu_search_data nu = Some old ->
  h !! old = Some (OSearchData sd) ->
  phase_length -> grids_shaped sd -> session_shaped nu ->
  exists l' nu' sd',
    (mask self t0 D P h).1 = Returned (PyRef l') /\
    (mask self t0 D P h).2 !! l' = Some (ONuance nu') /\
    search_data_of (mask self t0 D P h).2 l' = Some sd' /\
    sublist (nu_time nu') (nu_time nu) /\
    sublist (nu_flux nu') (nu_flux nu) /\
    Forall2 sublist (nu_X nu') (nu_X nu) /\
    sublist (sd_t0s sd') (sd_t0s sd) /\
    sublist (sd_ll sd') (sd_ll sd) /\
    sublist (sd_z sd') (sd_z sd) /\
    sublist (sd_vz sd') (sd_vz sd) /\
    (length (nu_time nu') <= length (nu_time nu))%nat.
Proof.
  intros Hs Hold Hsd Hph Hgrid Hsess.
  destruct (mask_facts h self old nu sd t0 D P Hs Hold Hsd Hph Hgrid Hsess)
    as (l' & l1 & nu' & sd' & d & Hrun & Hl1 & Hl' & Hsd' & Ht & Hf & HX
        & _ & _ & _ & Hsearch & _).
  assert (Hne : l' <> l1).
  { intros Heq. apply (is_fresh (dom (<[l1 := OSearchData sd']> h))).
    rewrite <- Hl', Heq, dom_insert_L.
    apply elem_of_union_l, elem_of_singleton. reflexivity. }
  exists l', nu', sd'. rewrite Hrun. cbn [fst snd].
  split; [reflexivity|].
  split; [apply lookup_insert_eq|].
  split.
  { unfold search_data_of. rewrite lookup_insert_eq, Hsearch.
    rewrite lookup_insert_ne by exact Hne.
    rewrite lookup_insert_eq. reflexivity. }
  rewrite Ht, Hf, HX, Hsd'. cbn.
  repeat split; try apply select_sublist.
  - rewrite map_fmap. apply Forall2_fmap_l, Forall_Forall2_diag.
    apply Forall_forall. intros r _. apply select_sublist.
  - apply sublist_length, select_sublist.
Qed.

Lemma phase_pointwise_length : phase_pointwise -> phase_length.
Proof.
  intros Hpw a t0 P. destruct (Hpw t0 P) as (f & Hf).
  rewrite Hf. apply length_map.
Qed.

(** Under a phase that folds each time by itself, what one masking kept
    lies outside the window again. *)
Lemma remask_all (a : vec) (t0 D P : float) :
  phase_pointwise ->
  Forall (fun b => b = true)
    (outside D (phase (select a (outside D (phase a t0 P))) t0 P)).
Proof.
  intros Hpw. destruct (Hpw t0 P) as (f & Hf).
  rewrite !Hf. unfold outside.
  rewrite !map_map, select_map_filter.
  rewrite map_fmap, Forall_fmap. apply Forall_forall.
  intros x Hx. apply list_elem_of_filter in Hx as [Hg _]. exact Hg.
Qed.

(** Masking the same detection twice removes nothing more, when the phase
    of a time does not depend on the other times: the second session has
    the time series, design matrix, errors and search grids of the
    first. *)
Theorem mask_twice (h : heap) (self old : loc) (nu : Nuance)
    (sd : SearchData) (t0 D P : float) :
  h !! self = Some (ONuance nu) -> nu_search_data nu = Some old ->
  h !! old = Some (OSearchData sd) ->
  phase_pointwise -> grids_shaped sd -> session_shaped nu ->
  exists l' nu' sd' l'' nu'' sd'',
    (mask self t0 D P h).1 = Returned (PyRef l') /\
    (mask self t0 D P h).2 !! l' = Some (ONuance nu') /\
    search_data_of (mask self t0 D P h).2 l' = Some sd' /\
    (mask l' t0 D P (mask self t0 D P h).2).1 = Returned (PyRef l'') /\
    (mask l' t0 D P (mask self t0 D P h).2).2 !! l'' = Some (ONuance nu'') /\
    search_data_of (mask l' t0 D P (mask self t0 D P h).2).2 l''
    = Some sd'' /\
    nu_time nu'' = nu_time nu' /\ nu_flux nu'' = nu_flux nu' /\
    nu_X nu'' = nu_X nu' /\ nu_error nu'' = nu_error nu' /\
    sd_t0s sd'' = sd_t0s sd' /\ sd_ll sd'' = sd_ll sd' /\
    sd_z sd'' = sd_z sd' /\ sd_vz sd'' = sd_vz sd'.
Proof.
  intros Hs Hold Hsd Hpw Hgrid Hsess.
  pose proof (phase_pointwise_length Hpw) as Hph.
  destruct (mask_shapes h self old nu sd t0 D P Hs Hold Hsd Hph Hgrid Hsess)
    as (l' & l1 & nu' & sd' & Hret & Hh' & Hsearch & Hh1 & Hsess' & Hgrid'
        & Ht & Hf & HX & He & Ht0 & Hll & Hz & Hvz).
  destruct (mask_shapes _ l' l1 nu' sd' t0 D P Hh' Hsearch Hh1 Hph
              Hgrid' Hsess')
    as (l'' & l2 & nu'' & sd'' & Hret' & Hh'' & Hsearch' & Hh2 & _ & _
        & Ht' & Hf' & HX' & He' & Ht0' & Hll' & Hz' & Hvz').
  assert (Hall : Forall (fun b => b = true)
                   (outside D (phase (nu_time nu') t0 P)))
    by (rewrite Ht; apply remask_all, Hpw).
  assert (Hall0 : Forall (fun b => b = true)
                    (outside D (phase (sd_t0s sd') t0 P)))
    by (rewrite Ht0; apply remask_all, Hpw).
  assert (Hlen : length (outside D (phase (nu_time nu') t0 P))
                 = length (nu_time nu'))
    by (rewrite length_outside; apply Hph).
  assert (Hlen0 : length (outside D (phase (sd_t0s sd') t0 P))
                  = length (sd_t0s sd'))
    by (rewrite length_outside; apply Hph).
  destruct Hsess' as (Lflux & LX & Lerr).
  destruct Hgrid' as (Lll & Lz & Lvz & _).
  exists l', nu', sd', l'', nu'', sd''.
  split; [exact Hret|]. split; [exact Hh'|].
  split; [unfold search_data_of; rewrite Hh', Hsearch, Hh1; reflexivity|].
  split; [exact Hret'|]. split; [exact Hh''|].
  split; [unfold search_data_of; rewrite Hh'', Hsearch', Hh2; reflexivity|].
  split; [rewrite Ht'; apply select_all; [congruence|exact Hall]|].
  split; [rewrite Hf'; apply select_all; [congruence|exact Hall]|].
  split.
  { rewrite HX'. rewrite <- (map_id (nu_X nu')) at 2.
    apply map_ext_Forall.
    unfold rows_of in LX. eapply Forall_impl; [exact LX|].
    intros r Hr. simpl in *. apply select_all; [|exact Hall].
  rewrite Hr, Hlen. reflexivity. }
  split.
  { rewrite He'. destruct (nu_error nu') as [|x|e]; try reflexivity.
    f_equal. apply select_all; [congruence|exact Hall]. }
  split; [rewrite Ht0'; apply select_all; [congruence|exact Hall0]|].
  split; [rewrite Hll'; apply select_all; [congruence|exact Hall0]|].
  split; [rewrite Hz'; apply select_all; [congruence|exact Hall0]|].
  rewrite Hvz'. apply select_all; [congruence|exact Hall0].
Qed.

(** [periodic_search] and [mask] need a stored surface: on a session
    whose [search_data] is [None], as the constructor leaves it, both
    raise [AttributeError] and write nothing. *)
Theorem needs_stored_surface (h : heap) (self : loc) (nu : Nuance) :
  h !! self = Some (ONuance nu) -> nu_search_data nu = None ->
  (forall periods,
     periodic_search self periods h = (Raised AttributeError, h)) /\
  (forall t0 D P, mask self t0 D P h = (Raised AttributeError, h)).
Proof.
  intros Hs Hnone. split.
  - intros periods.
    unfold periodic_search, mbind, M_bind, load_nuance, lift.
    rewrite Hs, Hnone. reflexivity.
  - intros t0 D P.
    unfold mask, mbind, M_bind, load_nuance, lift.
    rewrite Hs, Hnone. reflexivity.
Qed.

(** The constructor leaves [search_data] at [None]. *)
Lemma init_search_data (time flux : vec) (error : pyerror)
    (kernel : option Kernel) (X : option mat) (compute : bool) (mean : float)
    (h h' : heap) (l : loc) :
  __init__ time flux error kernel X compute mean h = (Returned l, h') ->
  exists nu, h' !! l = Some (ONuance nu) /\ nu_search_data nu = None.
Proof.
  unfold __init__, mbind, M_bind, lift, alloc.
  destruct (squared error) as [d|e]; [|discriminate].
  intros [= <- <-]. eexists. split; [apply lookup_insert_eq|].
  destruct compute; reflexivity.
Qed.

End MaskingMore.

(** ** The model functions *)

Section ModelsFacts.
Context {E : Externals} {I : ModelImports}.

(** The astrophysical component of [models(t0, D, P)] is the template
    [transit(time, t0, D, 1, P)] scaled by the depth that [depth(t0, D, P)]
    returns; the linear component uses the other coefficients of the same
    fit, and the noise is conditioned on what the two leave of the flux. *)
Theorem models_scaled_template (nu : Nuance) ev (t0 D : float)
    (P : option float) :
  eval_m nu = Returned ev -> shaped nu ev -> template_length nu ->
  exists z dz mean signal noise,
    depth nu t0 D P = Returned (z, dz) /\
    models nu t0 D P = Returned (mean, signal, noise) /\
    signal = map (fun x => (x * z)%float)
               (transit (nu_time nu) t0 D 1%float P) /\
    length signal = length (nu_time nu) /\
    mean = vecmat
             (take (length (nu_X nu))
                (ev (transit (nu_time nu) t0 D 1%float P)).1.2)
             (nu_X nu) /\
    noise = condition_mean (nu_gp nu)
              (vsub (vsub (nu_flux nu) mean) signal).
Proof.
  intros He Hsh Htl.
  destruct (depth_snr_run nu ev t0 D P He Hsh Htl)
    as (w & v & row & wl & vl & Hw & Hv & Hwl & Hrow & Hvl & Lw & Lv & Rv
        & Hdepth & _).
  exists wl, (sqrt vl). eexists _, _, _.
  split; [exact Hdepth|].
  split.
  { unfold models, _models, mbind, outcome_bind. rewrite He.
    unfold index_last. rewrite Hw, Hwl. reflexivity. }
  split; [reflexivity|].
  split; [rewrite length_map; apply (proj2 Htl)|].
  split; [|reflexivity].
  unfold but_last. rewrite Hw, Lw. simpl. rewrite Nat.sub_0_r.
  reflexivity.
Qed.

Lemma default_mask_all (nu : Nuance) :
  length (default_mask nu None) = length (nu_time nu) /\
  Forall (fun b => b = true) (default_mask nu None).
Proof.
  unfold default_mask. split; [apply length_map|].
  rewrite map_fmap, Forall_fmap. apply Forall_forall. reflexivity.
Qed.

Lemma masked_by_default (nu : Nuance) :
  session_shaped nu ->
  bool_index (nu_time nu) (default_mask nu None) = Returned (nu_time nu) /\
  bool_index (nu_flux nu) (default_mask nu None) = Returned (nu_flux nu) /\
  bool_index_cols (nu_X nu) (default_mask nu None) = Returned (nu_X nu).
Proof.
  intros (Lflux & LX & _).
  destruct (default_mask_all nu) as [Hlen Hall].
  split.
  { rewrite bool_index_run by congruence.
    rewrite select_all by (congruence || assumption). reflexivity. }
  split.
  { rewrite bool_index_run by congruence.
    rewrite select_all by (congruence || assumption). reflexivity. }
  rewrite (bool_index_cols_run _ _ _ LX) by congruence. f_equal.
  rewrite <- (map_id (nu_X nu)) at 2. apply map_ext_Forall.
  unfold rows_of in LX. eapply Forall_impl; [exact LX|].
  intros r Hr. simpl in *. apply select_all; [|exact Hall].
  rewrite Hr, Hlen. reflexivity.
Qed.

(** With [mask] omitted, [mu] and [gp_optimization] work on every sample:
    [mu] conditions the noise model on the whole flux, and the closures of
    [gp_optimization] capture the whole time series, flux and design
    matrix. A boolean mask whose length is not that of the time series
    makes both raise [IndexError]. *)
Theorem default_mask_keeps_all (nu : Nuance) ev
    (build_gp : gmap string Param -> vec -> GP) :
  session_shaped nu -> eval_m nu = Returned ev ->
  mu nu None
  = Returned
      (vadd
         (condition_loc (nu_gp nu)
            (vsub (nu_flux nu)
               (vecmat (but_last (ev (zeros_like (nu_time nu))).1.2)
                  (nu_X nu)))
            (nu_time nu))
         (vecmat (but_last (ev (zeros_like (nu_time nu))).1.2) (nu_X nu))) /\
  gp_optimization nu build_gp None
  = Returned
      (optimize (nll build_gp (nu_time nu) (nu_flux nu) (nu_X nu)),
       mu_of nu build_gp (nu_time nu) (nu_flux nu) (nu_X nu),
       nll build_gp (nu_time nu) (nu_flux nu) (nu_X nu)) /\
  forall m, length m <> length (nu_time nu) ->
    mu nu (Some m) = Raised IndexError /\
    gp_optimization nu build_gp (Some m) = Raised IndexError.
Proof.
  intros Hsess He.
  destruct (masked_by_default nu Hsess) as (Hx & Hy & HX).
  split.
  { unfold mu, mbind, outcome_bind. rewrite Hx, Hy, HX, He. reflexivity. }
  split.
  { unfold gp_optimization, mbind, outcome_bind. rewrite Hx, Hy, HX.
    reflexivity. }
  intros m Hm.
  assert (Hbad : bool_index (nu_time nu) m = Raised IndexError).
  { unfold bool_index. rewrite decide_False by congruence. reflexivity. }
  split.
  - unfold mu, mbind, outcome_bind, default_mask. rewrite Hbad. reflexivity.
  - unfold gp_optimization, mbind, outcome_bind, default_mask.
    rewrite Hbad. reflexivity.
Qed.

(** The dictionary comprehension of [optimize]: when every name is a
    parameter, the starting point holds the named parameters at their
    initial values and nothing else. *)
Lemma start_of_Found (init_params : gmap string Param)
    (param_names : list string) :
  Forall (fun k => is_Some (init_params !! k)) param_names ->
  exists start,
    start_of init_params param_names = Found start /\
    forall k, start !! k
              = if decide (k ∈ param_names) then init_params !! k else None.
Proof.
  induction 1 as [|k0 ks [v Hv] _ (start & Hstart & Hlook)].
  - exists ∅. split; [reflexivity|].
    intros k. rewrite lookup_empty.
    destruct (decide (k ∈ [])) as [Hin|]; [|reflexivity].
    apply elem_of_nil in Hin. contradiction.
  - exists (<[k0 := v]> start). split.
    { simpl. rewrite Hv, Hstart. reflexivity. }
    intros k. destruct (decide (k = k0)) as [->|Hne].
    + rewrite lookup_insert_eq, decide_True by left. symmetry. exact Hv.
    + rewrite lookup_insert_ne by congruence. rewrite Hlook.
      destruct (decide (k ∈ ks)) as [Hin|Hnin].
      * rewrite decide_True by (right; exact Hin). reflexivity.
      * rewrite decide_False; [reflexivity|].
        intros [->|Hin]%elem_of_cons; contradiction.
Qed.

(** [optimize] changes the named parameters only: the result has the
    names of [init_params], a parameter that is not in [param_names]
    keeps its initial value, and a named one takes the value the minimiser
    returned, the minimiser having started from the named parameters at
    their initial values. *)
Theorem optimize_keeps_fixed (f : gmap string Param -> float)
    (init_params : gmap string Param) (param_names : list string) :
  minimiser_keeps_names ->
  Forall (fun k => is_Some (init_params !! k)) param_names ->
  exists start soln r,
    start_of init_params param_names = Found start /\
    (forall k, start !! k
               = if decide (k ∈ param_names) then init_params !! k
                 else None) /\
    soln = scipy_minimize (fun theta => f (theta ∪ init_params)) start /\
    optimize f init_params (Some param_names) = Found r /\
    dom r = dom init_params /\
    (forall k, k ∉ param_names -> r !! k = init_params !! k) /\
    (forall k, k ∈ param_names -> r !! k = soln !! k).
Proof.
  intros Hkeep Hnames.
  destruct (start_of_Found init_params param_names Hnames)
    as (start & Hstart & Hlook).
  set (soln := scipy_minimize (fun theta => f (theta ∪ init_params)) start).
  assert (Hdom : dom soln = dom start) by apply Hkeep.
  assert (Hsome : forall k, is_Some (soln !! k) <-> k ∈ param_names).
  { intros k. rewrite <- elem_of_dom, Hdom, elem_of_dom, Hlook.
    destruct (decide (k ∈ param_names)) as [Hin|Hnin].
    - rewrite Forall_forall in Hnames. split; auto.
    - split; [intros [x Hx]; discriminate|contradiction]. }
  exists start, soln, (soln ∪ init_params).
  split; [exact Hstart|]. split; [exact Hlook|]. split; [reflexivity|].
  split; [unfold optimize; rewrite Hstart; reflexivity|].
  split.
  { apply set_eq. intros k. rewrite dom_union_L, elem_of_union, !elem_of_dom.
    split; [|auto]. intros [Hk|Hk]; [|exact Hk].
    apply Hsome in Hk. rewrite Forall_forall in Hnames. auto. }
  split.
  - intros k Hk. apply lookup_union_r.
    destruct (soln !! k) eqn:Hs; [|reflexivity].
    exfalso. apply Hk, Hsome. eauto.
  - intros k Hk. apply lookup_union_l', Hsome, Hk.
Qed.

(** A name that is not a parameter makes [optimize] raise [KeyError] for
    the first such name, before the minimiser is run. *)
Theorem optimize_unknown_name (f : gmap string Param -> float)
    (init_params : gmap string Param) (pre post : list string) (k : string) :
  Forall (fun k => is_Some (init_params !! k)) pre ->
  init_params !! k = None ->
  optimize f init_params (Some (pre ++ k :: post)) = KeyError k.
Proof.
  intros Hpre Hk. unfold optimize.
  assert (Hstart : start_of init_params (pre ++ k :: post) = KeyError k).
  { induction Hpre as [|k0 ks [v Hv] _ IH]; simpl.
    - rewrite Hk. reflexivity.
    - rewrite Hv, IH. reflexivity. }
  rewrite Hstart. reflexivity.
Qed.

(** With [param_names] omitted every parameter is optimised: the
    minimiser starts from [init_params] itself and [optimize] returns what
    the minimiser returned. *)
Theorem optimize_all_by_default (f : gmap string Param -> float)
    (init_params : gmap string Param) :
  minimiser_keeps_names ->
  optimize f init_params None
  = Found (scipy_minimize (fun theta => f (theta ∪ init_params))
             init_params).
Proof.
  intros Hkeep.
  assert (Hnames : Forall (fun k => is_Some (init_params !! k))
                     (map_to_list init_params).*1).
  { apply Forall_forall. intros k Hk.
    apply list_elem_of_fmap in Hk as ([k' v] & -> & Hin).
    apply elem_of_map_to_list in Hin. simpl. eauto. }
  destruct (start_of_Found init_params _ Hnames) as (start & Hstart & Hlook).
  assert (Heq : start = init_params).
  { apply map_eq. intros k. rewrite Hlook.
    destruct (decide (k ∈ (map_to_list init_params).*1)) as [Hin|Hnin];
      [reflexivity|].
    destruct (init_params !! k) as [v|] eqn:Hv; [|reflexivity].
    exfalso. apply Hnin. apply list_elem_of_fmap. exists (k, v).
    split; [reflexivity|]. apply elem_of_map_to_list. exact Hv. }
  subst start. unfold optimize. rewrite Hstart. f_equal.
  apply map_eq. intros k.
  set (soln := scipy_minimize (fun theta => f (theta ∪ init_params))
                 init_params).
  destruct (soln !! k) as [v|] eqn:Hs.
  - rewrite (lookup_union_l' soln init_params k) by eauto. exact Hs.
  - rewrite lookup_union_r by exact Hs.
    apply not_elem_of_dom.
    rewrite <- (Hkeep (fun theta => f (theta ∪ init_params)) init_params).
    apply not_elem_of_dom. exact Hs.
Qed.

End ModelsFacts.

(** ** The further properties at the example sessions *)

Section ToyFactsMore.
Import Toy ToyModels Examples MoreExamples.

Lemma toy_phase_pointwise : phase_pointwise.
Proof.
  intros t0 P. exists (fun t => wrap 64 P (t - t0)%float).
  intros a. reflexivity.
Qed.

Lemma toy_session_shaped_a : session_shaped nu_a.
Proof. vm_compute. repeat split. repeat constructor. Qed.

Lemma toy_minimiser_keeps_names : minimiser_keeps_names.
Proof. intros f start. cbn. apply dom_fmap_L. Qed.

End ToyFactsMore.

Section InstancesMore.
Import Toy ToyModels Examples MoreExamples.

(** The cell [(t0, D) = (1, 0.5)] of the first session has a fitted depth
    that is not negative. *)
Lemma linear_search_keeps_likelihood_witness :
  exists sd,
    search_data_of (linear_search 1%positive t0s_a Ds_a true h_a).2
      1%positive = Some sd /\
    cell (sd_ll sd) 0 0 = Some (eval_transit nu_a ev_a 1 0.5).2.
Proof.
  apply (linear_search_keeps_likelihood h_a 1%positive nu_a ev_a t0s_a Ds_a
           true 0 0 1%float 0.5%float);
    [reflexivity | reflexivity | reflexivity | reflexivity
    | right; left; reflexivity].
Defined.

Lemma linear_search_frame_witness :
  (linear_search 1%positive [1%float] [0.5%float] false h_s).2 !! 2%positive
  = Some (OSearchData sd_s) /\
  exists nu',
    (linear_search 1%positive [1%float] [0.5%float] false h_s).2
      !! 1%positive = Some (ONuance nu') /\
    nu_search_data nu' <> Some 2%positive.
Proof.
  destruct (linear_search_frame h_s 1%positive nu_s ev_a [1%float]
              [0.5%float] false) as [_ H]; [reflexivity | reflexivity|].
  apply (H 2%positive sd_s); reflexivity.
Defined.

Lemma linear_search_repeatable_witness :
  search_data_of
    (linear_search 1%positive t0s_a Ds_a true
       (linear_search 1%positive [3%float] [1%float] false h_a).2).2
    1%positive
  = search_data_of (linear_search 1%positive t0s_a Ds_a true h_a).2
      1%positive.
Proof.
  destruct (linear_search_repeatable h_a 1%positive nu_a ev_a t0s_a Ds_a
              [3%float] [1%float] true false) as [H _];
    [reflexivity | reflexivity|].
  exact H.
Defined.

Lemma no_evaluator_raises_witness :
  exists nu,
    h_n !! 1%positive = Some (ONuance nu) /\
    ll0 nu = Raised AttributeError /\
    linear_search 1%positive t0s_a Ds_a true h_n
    = (Raised AttributeError, h_n).
Proof.
  destruct (no_evaluator_raises [0; 1; 2; 3]%float [1; 1; 0.5; 1]%float
              (ErrScalar 1%float) None None 0%float ∅ h_n 1%positive)
    as (nu & Hnu & Hll0 & _ & Hsearch); [reflexivity|].
  exists nu. auto.
Defined.

Lemma periodic_search_no_period_witness :
  exists l',
    (l' ∉ dom h_s) /\
    periodic_search 1%positive [] h_s
    = (Returned (PyRef l'),
       <[l' := OSearchData (set_folded sd_s [] [] [] [])]> h_s).
Proof.
  apply (periodic_search_no_period h_s 1%positive 2%positive nu_s sd_s);
    reflexivity.
Defined.

(** The surface of a search without epochs folds to an empty grid. *)
Lemma periodic_search_empty_fold_raises_witness :
  (periodic_search 1%positive [1.5; 3]%float h_e).1 = Raised ValueError /\
  search_data_of (periodic_search 1%positive [1.5; 3]%float h_e).2 1%positive
  = Some sd_e.
Proof.
  destruct (periodic_search_empty_fold_raises h_e 1%positive 2%positive nu_s
              ev_a sd_e [] [3%float] 1.5%float)
    as (Hret & _ & Hsd);
    [reflexivity | reflexivity | reflexivity | reflexivity
    | exact toy_shaped_s | apply toy_template_length
    | intros P' HP'; apply elem_of_nil in HP'; destruct HP'
    | reflexivity |].
  split; assumption.
Defined.

Lemma periodic_search_first_maximum_witness :
  exists sd' params P2 i j c,
    deref (periodic_search 1%positive periods_a h_s).2
          (periodic_search 1%positive periods_a h_s).1
    = Some (OSearchData sd') /\
    sd_Q_params sd' = Some params /\
    (fold_ll sd_s 1.5).2 = P2 /\
    is_Some (params !! 0%nat) /\
    cell P2 i j = Some c.
Proof.
  destruct (periodic_search_first_maximum h_s 1%positive 2%positive nu_s
              ev_a sd_s periods_a 0 1.5%float)
    as (sd' & params & phase & P1 & P2 & i & j & ph & Dj & c & Hd & Hp & Hf
        & _ & _ & Hp0 & Hc & _);
    [reflexivity | reflexivity | reflexivity
    | reflexivity | exact toy_shaped_s | apply toy_template_length
    | intros; apply toy_fold_ok_s | reflexivity |].
  exists sd', params, P2, i, j, c.
  rewrite Hf. eauto 10.
Defined.

Lemma periodic_search_repeatable_witness :
  exists l1 l2,
    (periodic_search 1%positive periods_a h_s).1 = Returned (PyRef l1) /\
    (periodic_search 1%positive periods_a
       (periodic_search 1%positive periods_a h_s).2).1
    = Returned (PyRef l2) /\
    l1 <> l2.
Proof.
  destruct (periodic_search_repeatable h_s 1%positive 2%positive nu_s ev_a
              sd_s periods_a)
    as (l1 & l2 & sd' & H1 & H2 & Hne & _);
    [reflexivity | reflexivity | reflexivity
    | reflexivity | exact toy_shaped_s | apply toy_template_length
    | intros; apply toy_fold_ok_s |].
  exists l1, l2. auto.
Defined.

Lemma mask_rebuilds_session_witness :
  exists l' nu',
    (mask 1%positive 2 0.4 10 h_s).1 = Returned (PyRef l') /\
    (mask 1%positive 2 0.4 10 h_s).2 !! l' = Some (ONuance nu') /\
    nu_mean nu' = 0%float /\
    (linear_search l' t0s_a Ds_a true (mask 1%positive 2 0.4 10 h_s).2).1
    = Returned PyNone.
Proof.
  destruct (mask_rebuilds_session h_s 1%positive 2%positive nu_s sd_s
              2%float 0.4%float 10%float)
    as (l' & nu' & d & ev' & Hret & Hl' & Hmean & _ & _ & _ & _ & Hsearch);
    [reflexivity | reflexivity | reflexivity
    | exact toy_phase_length | apply search_surface_shaped
    | exact toy_session_shaped_s |].
  exists l', nu'. auto.
Defined.

Lemma mask_surface_attributes_witness :
  exists l' sd',
    (mask 1%positive 2 0.4 10 h_s).1 = Returned (PyRef l') /\
    search_data_of (mask 1%positive 2 0.4 10 h_s).2 l' = Some sd' /\
    sd_periods sd' = None /\ sd_llv sd' = None /\ sd_llc sd' = None.
Proof.
  destruct (mask_surface_attributes h_s 1%positive 2%positive nu_s sd_s
              2%float 0.4%float 10%float)
    as (l' & sd' & Hret & Hsd & Hp & Hv & Hc & _);
    [reflexivity | reflexivity | reflexivity
    | exact toy_phase_length | apply search_surface_shaped
    | exact toy_session_shaped_s |].
  exists l', sd'. auto.
Defined.

Lemma mask_keeps_shapes_witness :
  exists l' nu' sd' l'',
    (mask 1%positive 2 0.4 10 h_s).1 = Returned (PyRef l') /\
    (mask 1%positive 2 0.4 10 h_s).2 !! l' = Some (ONuance nu') /\
    search_data_of (mask 1%positive 2 0.4 10 h_s).2 l' = Some sd' /\
    session_shaped nu' /\ grids_shaped sd' /\
    (mask l' 1 0.4 10 (mask 1%positive 2 0.4 10 h_s).2).1
    = Returned (PyRef l'').
Proof.
  destruct (mask_keeps_shapes h_s 1%positive 2%positive nu_s sd_s
              2%float 0.4%float 10%float)
    as (l' & nu' & sd' & Hret & Hl' & Hsd & Hsess & Hgrid & Hagain);
    [reflexivity | reflexivity | reflexivity
    | exact toy_phase_length | apply search_surface_shaped
    | exact toy_session_shaped_s |].
  destruct (Hagain 1%float 0.4%float 10%float) as [l'' Hl''].
  exists l', nu', sd', l''. auto 10.
Defined.

Lemma mask_subsequence_witness :
  exists l' nu' sd',
    (mask 1%positive 2 0.4 10 h_s).1 = Returned (PyRef l') /\
    (mask 1%positive 2 0.4 10 h_s).2 !! l' = Some (ONuance nu') /\
    search_data_of (mask 1%positive 2 0.4 10 h_s).2 l' = Some sd' /\
    sublist (nu_time nu') (nu_time nu_s) /\
    sublist (sd_t0s sd') (sd_t0s sd_s).
Proof.
  destruct (mask_subsequence h_s 1%positive 2%positive nu_s sd_s
              2%float 0.4%float 10%float)
    as (l' & nu' & sd' & Hret & Hl' & Hsd & Ht & _ & _ & Ht0 & _);
    [reflexivity | reflexivity | reflexivity
    | exact toy_phase_length | apply search_surface_shaped
    | exact toy_session_shaped_s |].
  exists l', nu', sd'. auto 10.
Defined.

Lemma mask_twice_witness :
  exists l' nu' l'' nu'',
    (mask 1%positive 2 0.4 10 h_s).1 = Returned (PyRef l') /\
    (mask 1%positive 2 0.4 10 h_s).2 !! l' = Some (ONuance nu') /\
    (mask l' 2 0.4 10 (mask 1%positive 2 0.4 10 h_s).2).1
    = Returned (PyRef l'') /\
    (mask l' 2 0.4 10 (mask 1%positive 2 0.4 10 h_s).2).2 !! l''
    = Some (ONuance nu'') /\
    nu_time nu'' = nu_time nu' /\ nu_flux nu'' = nu_flux nu'.
Proof.
  destruct (mask_twice h_s 1%positive 2%positive nu_s sd_s
              2%float 0.4%float 10%float)
    as (l' & nu' & sd' & l'' & nu'' & sd'' & Hret & Hl' & _ & Hret' & Hl''
        & _ & Ht & Hf & _);
    [reflexivity | reflexivity | reflexivity
    | exact toy_phase_pointwise | apply search_surface_shaped
    | exact toy_session_shaped_s |].
  exists l', nu', l'', nu''. auto 10.
Defined.

Lemma needs_stored_surface_witness :
  periodic_search 1%positive periods_a h_a = (Raised AttributeError, h_a) /\
  mask 1%positive 2 0.4 10 h_a = (Raised AttributeError, h_a).
Proof.
  destruct (needs_stored_surface h_a 1%positive nu_a) as [Hp Hm];
    [reflexivity | reflexivity|].
  split; [apply Hp | apply Hm].
Defined.

Lemma models_scaled_template_witness :
  exists z dz mean signal noise,
    depth nu_a 2 0.5 None = Returned (z, dz) /\
    models nu_a 2 0.5 None = Returned (mean, signal, noise) /\
    signal = map (fun x => (x * z)%float)
               (transit (nu_time nu_a) 2 0.5 1%float None) /\
    length signal = 4%nat.
Proof.
  destruct (models_scaled_template nu_a ev_a 2%float 0.5%float None)
    as (z & dz & mean & signal & noise & Hd & Hm & Hs & Hl & _);
    [reflexivity | exact toy_shaped_a | apply toy_template_length|].
  exists z, dz, mean, signal, noise. auto.
Defined.

Lemma default_mask_keeps_all_witness :
  exists v,
    mu nu_a None = Returned v /\
    mu nu_a (Some [true; false]) = Raised IndexError /\
    exists optimize mu nll,
      gp_optimization nu_a (fun params _ => DiagScalar 1%float) None
      = Returned (optimize, mu, nll).
Proof.
  destruct (default_mask_keeps_all nu_a ev_a
              (fun _ _ => DiagScalar 1%float))
    as (Hmu & Hgp & Hbad);
    [exact toy_session_shaped_a | reflexivity|].
  eexists. split; [exact Hmu|].
  split; [apply (Hbad [true; false]); discriminate|].
  eexists _, _, _. exact Hgp.
Defined.

Lemma optimize_keeps_fixed_witness :
  exists r,
    optimize objective_a init_params_a (Some ["scale"%string]) = Found r /\
    dom r = dom init_params_a /\
    r !! "sigma"%string = Some 1%float.
Proof.
  destruct (optimize_keeps_fixed objective_a init_params_a
              ["scale"%string])
    as (start & soln & r & _ & _ & _ & Hr & Hdom & Hfixed & _);
    [exact toy_minimiser_keeps_names
    | repeat constructor; eexists; reflexivity|].
  exists r. split; [exact Hr|]. split; [exact Hdom|].
  rewrite Hfixed; [reflexivity|].
  intros Hin. apply list_elem_of_singleton in Hin. discriminate.
Defined.

Lemma optimize_unknown_name_witness :
  optimize objective_a init_params_a
    (Some ["scale"; "period"; "sigma"]%string)
  = KeyError "period"%string.
Proof.
  apply (optimize_unknown_name objective_a init_params_a ["scale"%string]
           ["sigma"%string] "period"%string);
    [repeat constructor; eexists; reflexivity | reflexivity].
Defined.

Lemma optimize_all_by_default_witness :
  optimize objective_a init_params_a None
  = Found (scipy_minimize (fun theta => objective_a (theta ∪ init_params_a))
             init_params_a).
Proof.
  apply (optimize_all_by_default objective_a init_params_a).
  exact toy_minimiser_keeps_names.
Defined.

End InstancesMore.
